(** * deepseek-search: the content cleaner, the page scripts and the
      orchestrator of [scripts/deepseek_search.py]

    [scripts/doubao_search.py] is the same program with the site name, the
    URL fragment and the exception class renamed; everything below applies
    to both, the site-specific constants being fields of [site]. *)

From Stdlib Require Import NArith ZArith Ascii String DecimalString Bool Lia.
From stdpp Require Import gmap strings list.

Local Open Scope N_scope.

(** ** Text

    A Python [str] is a sequence of code points.  The same carrier is used
    for the text the page script sees: JavaScript counts UTF-16 code units,
    and the two agree on text of the Basic Multilingual Plane, which is
    what the model takes page text to be. *)

Definition char := N.
Definition str := list char.

(** String literals are written as in the UTF-8 source files and decoded
    to code points. *)
Fixpoint utf8_decode (bs : list N) : str :=
  match bs with
  | [] => []
  | b :: r =>
    if b <? 0x80 then b :: utf8_decode r
    else if b <? 0xE0 then
      match r with
      | b1 :: r' => ((b - 0xC0) * 0x40 + (b1 - 0x80)) :: utf8_decode r'
      | _ => []
      end
    else if b <? 0xF0 then
      match r with
      | b1 :: b2 :: r' =>
        ((b - 0xE0) * 0x1000 + (b1 - 0x80) * 0x40 + (b2 - 0x80)) :: utf8_decode r'
      | _ => []
      end
    else
      match r with
      | b1 :: b2 :: b3 :: r' =>
        ((b - 0xF0) * 0x40000 + (b1 - 0x80) * 0x1000 + (b2 - 0x80) * 0x40 + (b3 - 0x80))
          :: utf8_decode r'
      | _ => []
      end
  end.

Definition utf8 (s : string) : str :=
  utf8_decode (List.map N_of_ascii (list_ascii_of_string s)).

Definition NL : char := 10.

(** [not l], for a string or a list *)
Definition is_empty {A} (l : list A) : bool :=
  match l with [] => true | _ => false end.

Definition len (s : str) : N := N.of_nat (length s).

Fixpoint is_prefix (p s : str) : bool :=
  match p, s with
  | [], _ => true
  | _ :: _, [] => false
  | a :: p', b :: s' => (a =? b) && is_prefix p' s'
  end.

(** [sub in s] *)
Fixpoint contains (sub s : str) : bool :=
  is_prefix sub s ||
  match s with
  | [] => false
  | _ :: s' => contains sub s'
  end.

(** [s.split(sep)] for a one-character separator: never the empty list. *)
Fixpoint split (sep : char) (s : str) : list str :=
  match s with
  | [] => [[]]
  | c :: s' =>
    if c =? sep then [] :: split sep s'
    else match split sep s' with
         | l :: ls => (c :: l) :: ls
         | [] => [[c]]
         end
  end.

(** What splitting at newlines makes of lines joined by a blank line:
    the lines with an empty piece between each. *)
Fixpoint spaced (ls : list str) : list str :=
  match ls with
  | [] => [[]]
  | [l] => [l]
  | l :: rest => l :: [] :: spaced rest
  end.

(** [sep.join(ls)] *)
Fixpoint join (sep : str) (ls : list str) : str :=
  match ls with
  | [] => []
  | [l] => l
  | l :: rest => l ++ sep ++ join sep rest
  end.

Fixpoint drop_while (f : char -> bool) (s : str) : str :=
  match s with
  | [] => []
  | c :: s' => if f c then drop_while f s' else s
  end.

Definition trim_with (f : char -> bool) (s : str) : str :=
  rev (drop_while f (rev (drop_while f s))).

Definition between (lo hi c : char) : bool := (lo <=? c) && (c <=? hi).

(** The code points [str.strip()] removes: those for which [str.isspace]
    holds. *)
Definition py_isspace (c : char) : bool :=
  between 0x09 0x0D c || between 0x1C 0x20 c || (c =? 0x85) || (c =? 0xA0)
  || (c =? 0x1680) || between 0x2000 0x200A c || (c =? 0x2028) || (c =? 0x2029)
  || (c =? 0x202F) || (c =? 0x205F) || (c =? 0x3000).

(** [s.strip()] *)
Definition strip (s : str) : str := trim_with py_isspace s.

(** The Unicode tables of the Python runtime that the program consults and
    that are no part of the repository: [str.lower], the decimal digits
    matched by [\d], the word characters matched by [\w]. *)
Class Unicode := {
  lower : str -> str;
  is_decimal : char -> bool;
  is_word : char -> bool
}.

(** The restriction of these tables to ASCII. *)
Definition ascii_lower_char (c : char) : char :=
  if between 0x41 0x5A c then c + 0x20 else c.

Definition ascii_unicode : Unicode := {|
  lower := List.map ascii_lower_char;
  is_decimal := between 0x30 0x39;
  is_word := fun c =>
    between 0x30 0x39 c || between 0x41 0x5A c || between 0x61 0x7A c || (c =? 0x5F)
|}.

(** ** Regular expressions

    The fragment the program's patterns are written in: a sequence of
    literal characters and [\d+], matched from the start of the subject
    ([re.match], and every pattern opens with [^]), optionally closed by
    [$]. *)

Inductive atom :=
| Lit (c : char)
| Digits.                       (* \d+ *)

Record pattern := Pattern { body : list atom; dollar : bool }.

(** Python's [$] without [re.MULTILINE]: the end of the subject, or just
    before a newline that ends it. *)
Definition py_at_end (s : str) : bool :=
  match s with
  | [] => true
  | [c] => c =? NL
  | _ => false
  end.

(** JavaScript's [$] without the [m] flag: the end of the subject. *)
Definition js_at_end (s : str) : bool := is_empty s.

Section Matching.
Variable digit : char -> bool.
Variable at_end : str -> bool.

Fixpoint match_here (p : list atom) (eol : bool) (s : str) {struct p} : bool :=
  match p with
  | [] => if eol then at_end s else true
  | Lit c :: p' =>
    match s with
    | x :: s' => (x =? c) && match_here p' eol s'
    | [] => false
    end
  | Digits :: p' =>
    (fix more (t : str) : bool :=
       match t with
       | x :: t' => digit x && (match_here p' eol t' || more t')
       | [] => false
       end) s
  end.

Definition matches (p : pattern) (s : str) : bool :=
  match_here (body p) (dollar p) s.
End Matching.

Definition lits (s : string) : list atom := List.map Lit (utf8 s).

(** [^text$] and [^text] *)
Definition whole (s : string) : pattern := Pattern (lits s) true.
Definition starting (s : string) : pattern := Pattern (lits s) false.

(** [re.match(pattern, line)] as a truth value *)
Definition re_match `{Unicode} (p : pattern) (line : str) : bool :=
  matches is_decimal py_at_end p line.

(** [re.search(r'[\u4e00-\u9fff]', line)] *)
Definition has_chinese (line : str) : bool := existsb (between 0x4E00 0x9FFF) line.

Definition is_alnum (c : char) : bool :=
  between 0x61 0x7A c || between 0x41 0x5A c || between 0x30 0x39 c.

(** [re.search(r'[a-zA-Z0-9]', line)] *)
Definition has_text (line : str) : bool := existsb is_alnum line.

(** ** The content cleaner *)

Local Open Scope string_scope.

Definition exclude_patterns : list pattern := [
  whole "新对话";
  starting "AI 创作";
  whole "云盘";
  whole "更多";
  whole "历史对话";
  starting "抖音";
  whole "快速";
  whole "帮我写作";
  whole "编程";
  whole "深入研究";
  whole "图像生成";
  whole "解题答疑";
  whole "更多";
  whole "PPT 生成";
  whole "免费";
  Pattern (lits "参考 " ++ [Digits] ++ lits " 篇资料") true;
  starting "ERROR:"
].

Local Close Scope string_scope.

Section Cleaner.
Context `{Unicode}.

(** The inner loop over [exclude_patterns]. *)
Definition excluded (line : str) : bool :=
  existsb (fun p => re_match p line) exclude_patterns.

(** The loop over [lines] that fills [cleaned_lines]. *)
Fixpoint collect (lines : list str) : list str :=
  match lines with
  | [] => []
  | raw :: rest =>
    let line := strip raw in
    if is_empty line then collect rest
    else if negb (excluded line) && (10 <? len line) then
      if has_chinese line || has_text line then line :: collect rest
      else collect rest
    else collect rest
  end.

(** The loop over [enumerate(cleaned_lines)]: the lines from the first
    one whose lowercase form contains [query_lower], when there is one. *)
Fixpoint focus (query_lower : str) (cleaned_lines : list str) : option (list str) :=
  match cleaned_lines with
  | [] => None
  | line :: rest =>
    if contains query_lower (lower line) then Some cleaned_lines
    else focus query_lower rest
  end.

Definition SEP : str := [NL; NL].

(** The list whose join [clean_content] returns, for non-empty content. *)
Definition retained (content : str) (query : option str) : list str :=
  let cleaned_lines := collect (split NL content) in
  match query with
  | Some q =>
    if negb (is_empty q) && negb (is_empty cleaned_lines) then
      match focus (lower q) cleaned_lines with
      | Some from_here => from_here
      | None => cleaned_lines
      end
    else cleaned_lines
  | None => cleaned_lines
  end.

Definition clean_content (content : str) (query : option str) : str :=
  if is_empty content then content
  else join SEP (retained content query).

(** The test a stripped line passes to enter [cleaned_lines]. *)
Definition keep (line : str) : bool :=
  negb (is_empty line) && negb (excluded line) && (10 <? len line)
  && (has_chinese line || has_text line).

(** A line that [strip] leaves alone, that passes the test and has no
    newline. *)
Definition settled (l : str) : Prop :=
  strip l = l /\ keep l = true /\ ~ In NL l.

(** The conditions on a line of cleaned content, as the data model words
    them. *)
Definition line_ok (l : str) : Prop :=
  strip l <> [] /\
  10 < len l /\
  Forall (fun p => re_match p l = false) exclude_patterns /\
  (has_chinese l = true \/ has_text l = true).

(** The lines of a text that are not blank. *)
Definition text_lines (text : str) : list str :=
  List.filter (fun l => negb (is_empty l)) (split NL text).
End Cleaner.



(** ** The page scripts

    [extract_content] builds one of two JavaScript programs.  They are
    modelled as the functions of the page's visible text
    ([document.body.innerText]) that the text of [js_code], the value of
    the Python string, spells when read as JavaScript: a newline where
    that text has a backslash and [n], and in the [replace] call the
    pattern its two backslashes and [s+] spell, a backslash followed by one
    or more [s].  The first argument of [page_query_scoped] is the string
    that the literal in [indexOf] denotes; it is the query when the query
    is [plain].  Whether the bridge hands this text to the tab unchanged is
    no part of these definitions: where a result needs what the
    interpreter prints, it says so in a hypothesis. *)

(** The characters JavaScript's [trim] removes and [\s] matches. *)
Definition js_isspace (c : char) : bool :=
  between 0x09 0x0D c || (c =? 0x20) || (c =? 0xA0) || (c =? 0x1680)
  || between 0x2000 0x200A c || (c =? 0x2028) || (c =? 0x2029)
  || (c =? 0x202F) || (c =? 0x205F) || (c =? 0x3000) || (c =? 0xFEFF).

Definition js_trim (s : str) : str := trim_with js_isspace s.

(** The [replace] call with the pattern of [js_code]'s text, a backslash
    followed by one or more [s]: every such run becomes one space. *)
Fixpoint replace_backslash_s (in_match : bool) (s : str) : str :=
  match s with
  | [] => []
  | c :: s' =>
    if in_match && (c =? 0x73) then replace_backslash_s true s'
    else if (c =? 0x5C) && match s' with x :: _ => x =? 0x73 | [] => false end
         then 0x20 :: replace_backslash_s true s'
         else c :: replace_backslash_s false s'
  end.

(** A query that a JavaScript string literal between double quotes spells
    as it stands: no double quote, no backslash, no line terminator. *)
Definition plain (query : str) : bool :=
  forallb (fun c => negb ((c =? 0x22) || (c =? 0x5C) || (c =? 0x0A) || (c =? 0x0D)
                          || (c =? 0x2028) || (c =? 0x2029))) query.

(** A text of the Basic Multilingual Plane: its code points are its
    UTF-16 code units. *)
Definition bmp (text : str) : bool := forallb (fun c => c <? 0x10000) text.

Fixpoint index_from (sub s : str) (i : nat) : option nat :=
  if is_prefix sub s then Some i
  else match s with
       | [] => None
       | _ :: s' => index_from sub s' (S i)
       end.

(** [text.indexOf(sub, pos)], [None] standing for -1. *)
Definition indexOf (sub text : str) (pos : nat) : option nat :=
  index_from sub (drop pos text) (Nat.min pos (length text)).

(** [text.substring(a, b)] *)
Definition substring (a b : nat) (text : str) : str :=
  take (Nat.max a b - Nat.min a b) (drop (Nat.min a b) text).

Definition endMarkers : list str :=
  [utf8 "参考"; utf8 "我可以帮你"; utf8 "快速"; utf8 "帮我写作"; utf8 "编程"; utf8 "深入研究"].

Definition query_not_found : str :=
  utf8 "ERROR: Query not found in page" ++ [NL; NL] ++ utf8 "Full text:" ++ [NL].

(** The loop over [endMarkers], [end] starting at -1. *)
Definition find_end (text : str) (start : nat) : option nat :=
  fold_left
    (fun (end_ : option nat) (marker : str) =>
       match indexOf marker text (start + 50) with
       | Some markerPos =>
         match end_ with
         | None => Some markerPos
         | Some e => if (markerPos <? e)%nat then Some markerPos else end_
         end
       | None => end_
       end)
    endMarkers None.

(** The script sent when a query is given. *)
Definition page_query_scoped (query text : str) : str :=
  match indexOf query text 0 with
  | None => query_not_found ++ substring 0 5000 text
  | Some start =>
    let end_ := match find_end text start with
                | Some e => e
                | None => (start + 5000)%nat
                end in
    replace_backslash_s false (js_trim (substring start end_ text))
  end.

Definition skipPatterns : list pattern := [
  whole "新对话";
  starting "AI 创作";
  whole "云盘";
  whole "更多";
  whole "历史对话";
  starting "抖音";
  whole "快速";
  whole "帮我写作";
  whole "编程";
  whole "深入研究";
  whole "图像生成";
  whole "解题答疑";
  whole "更多"
].

(** [pattern.test(line)]; no skip pattern has a digit class. *)
Definition js_test (p : pattern) (line : str) : bool :=
  matches (fun _ => false) js_at_end p line.

(** The loop over [lines] that fills [contentLines]. *)
Fixpoint contentLines (lines : list str) : list str :=
  match lines with
  | [] => []
  | raw :: rest =>
    let line := js_trim raw in
    if is_empty line then contentLines rest
    else
      let shouldSkip := existsb (fun p => js_test p line) skipPatterns in
      let hasChinese := has_chinese line in
      if negb shouldSkip && hasChinese && (20 <? len line)
      then line :: contentLines rest
      else contentLines rest
  end.

(** The script sent when no query is given. *)
Definition page_unscoped (text : str) : str :=
  let lines := contentLines (split NL text) in
  if negb (is_empty lines) then join [NL; NL] lines
  else substring 0 5000 text.

(** ** Exceptions, the world and computations *)

(** The two scripts differ in the names of the site only. *)
Record site := Site {
  site_name : string;          (* in messages *)
  site_url : string;           (* the fragment a tab's URL must contain *)
  site_slug : string           (* in the default output path *)
}.

Definition deepseek : site := Site "DeepSeek" "chat.deepseek.com" "deepseek".
Definition doubao : site := Site "Doubao" "doubao.com/chat" "doubao".

(** The exceptions of the program; the string carried is [str(e)].  All
    but [KeyboardInterrupt] derive from [Exception]. *)
Inductive exn :=
| SearchError (msg : str)                 (* DeepSeekSearchError, DoubaoSearchError *)
| CalledProcessError (msg stderr : str)
| OtherException (msg : str)              (* any other subclass of Exception *)
| KeyboardInterrupt.

Definition exn_str (e : exn) : str :=
  match e with
  | SearchError msg => msg
  | CalledProcessError msg _ => msg
  | OtherException msg => msg
  | KeyboardInterrupt => []
  end.

(** [isinstance(e, Exception)]: what [except Exception] catches. *)
Definition is_exception (e : exn) : bool :=
  match e with
  | KeyboardInterrupt => false
  | _ => true
  end.

(** A reading of the clock; Python has a float here, and nothing below
    depends on its arithmetic. *)
Definition pyfloat := Z.

Inductive value :=
| VBool (b : bool)
| VStr (s : str)
| VInt (n : N)
| VFloat (x : pyfloat).

(** What the process can see and change: the script files present in the
    temporary directory (by the index of their unique name), the lines
    printed on the two output streams, the clock, and the files opened for
    writing by [save_results], each with the record dumped into it, or
    with [None] when the dump broke off. *)
Record world := World {
  temp_files : gset nat;
  stdout : list str;
  stderr : list str;
  clock : pyfloat;
  saved : list (str * option (gmap string value))
}.

Inductive outcome (A : Type) :=
| Ok (a : A)
| Raised (e : exn).
Arguments Ok {A} a.
Arguments Raised {A} e.

Definition M (A : Type) : Type := world -> outcome A * world.

#[export] Instance M_ret : MRet M := fun A a w => (Ok a, w).
#[export] Instance M_bind : MBind M := fun A B k m w =>
  match m w with
  | (Ok a, w') => k a w'
  | (Raised e, w') => (Raised e, w')
  end.

Definition raise {A} (e : exn) : M A := fun w => (Raised e, w).

(** [try: body except ...: handler], the clauses being for [Exception]
    or classes under it: what is not an [Exception] passes through. *)
Definition try_except {A} (body : M A) (handler : exn -> M A) : M A :=
  fun w =>
    match body w with
    | (Ok a, w') => (Ok a, w')
    | (Raised e, w') => if is_exception e then handler e w' else (Raised e, w')
    end.

(** [try: body finally: cleanup] *)
Definition try_finally {A} (body : M A) (cleanup : M unit) : M A :=
  fun w =>
    let '(r, w1) := body w in
    match cleanup w1 with
    | (Ok _, w2) => (r, w2)
    | (Raised e, w2) => (Raised e, w2)
    end.

Definition when (b : bool) (m : M unit) : M unit :=
  if b then m else mret tt.

(** The text streams the process writes encode as UTF-8, the encoding of
    the one platform the tool supports.  The temporary file and the
    standard output are strict: a lone surrogate, which is what an
    undecodable byte of the command line becomes, cannot be written to
    them.  The diagnostic stream escapes what it cannot encode, and takes
    any text. *)
Definition is_surrogate (c : char) : bool := between 0xD800 0xDFFF c.

Definition encodable (s : str) : bool := forallb (fun c => negb (is_surrogate c)) s.

Definition cannot_encode : exn :=
  OtherException (utf8 "'utf-8' codec can't encode character: surrogates not allowed").

Definition print (line : str) : M unit := fun w =>
  if encodable line
  then (Ok tt, World (temp_files w) (stdout w ++ [line]) (stderr w) (clock w) (saved w))
  else (Raised cannot_encode, w).

Definition print_stderr (line : str) (w : world) : world :=
  World (temp_files w) (stdout w) (stderr w ++ [line]) (clock w) (saved w).

Definition time_time : M pyfloat := fun w => (Ok (clock w), w).

(** ** The scripting bridge *)

Inductive page_script :=
| QueryScoped (query : str)
| Unscoped.

(** The two AppleScript programs of the source: the one of
    [find_deepseek_tab], and the one of [extract_content] around its
    JavaScript. *)
Inductive applescript :=
| FindTab (s : site)
| RunInTab (s : site) (js_code : page_script).

(** What [subprocess.run(['osascript', temp_path], check=True)] comes to. *)
Inductive run_outcome :=
| Completed (out : str)                   (* exit status 0 *)
| Failed (msg err : str)                  (* CalledProcessError *)
| NotRun (msg : str).                     (* any other exception *)

(** The surroundings of a run: the interpreter, the clock's formats, the
    platform, whether the operator interrupts the pause from the keyboard,
    and the error, if any, with which opening a path for writing fails. *)
Record env := Env {
  osascript : applescript -> run_outcome;
  strftime : string -> pyfloat -> str;
  float_format : string -> pyfloat -> str;
  is_macos : bool;
  interrupted : bool;
  open_error : str -> option str
}.

(** [time.sleep(secs)] *)
Definition time_sleep (e : env) (secs : Z) : M unit := fun w =>
  if interrupted e then (Raised KeyboardInterrupt, w)
  else (Ok tt, World (temp_files w) (stdout w) (stderr w) (clock w + secs)%Z (saved w)).

(** The only part of a script's text that is not a literal of the source
    file is the query spliced into it. *)
Definition spliced (script : applescript) : str :=
  match script with
  | RunInTab _ (QueryScoped query) => query
  | _ => []
  end.

(** [tempfile.NamedTemporaryFile(..., delete=False)]: a file under a name
    no file has. *)
Definition NamedTemporaryFile : M nat := fun w =>
  let name := fresh (temp_files w) in
  (Ok name, World ({[name]} ∪ temp_files w) (stdout w) (stderr w) (clock w) (saved w)).

Definition write (script : applescript) : M unit :=
  if encodable (spliced script) then mret tt
  else raise cannot_encode.

Definition unlink (temp_path : nat) : M unit := fun w =>
  (Ok tt, World (temp_files w ∖ {[temp_path]}) (stdout w) (stderr w) (clock w) (saved w)).

Definition subprocess_run (e : env) (script : applescript) : M str :=
  match osascript e script with
  | Completed out => mret out
  | Failed msg err => raise (CalledProcessError msg err)
  | NotRun msg => raise (OtherException msg)
  end.

Definition execute_applescript (e : env) (script : applescript) : M str :=
  try_except
    (temp_path ← (f ← NamedTemporaryFile; write script;; mret f);
     try_finally
       (result ← subprocess_run e script; mret (strip result))
       (unlink temp_path))
    (fun ex =>
       match ex with
       | CalledProcessError _ err =>
         raise (SearchError (utf8 "AppleScript execution failed: " ++ err))
       | _ =>
         raise (SearchError (utf8 "Failed to execute AppleScript: " ++ exn_str ex))
       end).

Definition find_tab (s : site) (e : env) : M str :=
  result ← execute_applescript e (FindTab s);
  if contains (utf8 "ERROR:") result then raise (SearchError result)
  else mret result.

Definition find_deepseek_tab := find_tab deepseek.
Definition find_doubao_tab := find_tab doubao.

Definition extract_content (s : site) (e : env) (query : option str) : M str :=
  let js_code :=
    match query with
    | Some q => if is_empty q then Unscoped else QueryScoped q
    | None => Unscoped
    end in
  result ← execute_applescript e (RunInTab s js_code);
  if contains (utf8 "ERROR:") result then raise (SearchError result)
  else mret result.

Definition tab_not_found (s : site) : str :=
  utf8 "ERROR: " ++ utf8 (site_name s) ++ utf8 " tab not found".

Definition run_page (js_code : page_script) (text : str) : str :=
  match js_code with
  | QueryScoped query => page_query_scoped query text
  | Unscoped => page_unscoped text
  end.

(** What the interpreter prints for the script of [find_deepseek_tab],
    which has no JavaScript and nothing spliced in: [located fragment] is
    the first tab, in the browser's order of windows and tabs, whose URL
    contains the fragment, when there is such a tab.  The value a script
    returns is printed followed by a newline. *)
Definition locate_script (located : string -> option str) (s : site) : run_outcome :=
  match located (site_url s) with
  | None => Completed (tab_not_found s ++ [NL])
  | Some _ => Completed (utf8 "SUCCESS" ++ [NL])
  end.

(** ** The orchestrator *)

Definition decimal (n : N) : str := utf8 (NilEmpty.string_of_uint (N.to_uint n)).

Definition timestamp (e : env) (format : string) : M str := fun w =>
  (Ok (strftime e format (clock w)), w).

Definition success_record (query content : str) (clean : bool)
    (elapsed_time : pyfloat) (stamp : str) : gmap string value :=
  <["success" := VBool true]>
  (<["query" := VStr query]>
  (<["content" := VStr content]>
  (<["length" := VInt (len content)]>
  (<["cleaned" := VBool clean]>
  (<["elapsed_time" := VFloat elapsed_time]>
  (<["timestamp" := VStr stamp]> ∅)))))).

Definition failure_record (query error : str)
    (elapsed_time : pyfloat) (stamp : str) : gmap string value :=
  <["success" := VBool false]>
  (<["query" := VStr query]>
  (<["error" := VStr error]>
  (<["elapsed_time" := VFloat elapsed_time]>
  (<["timestamp" := VStr stamp]> ∅)))).

(** The text the two handlers put in the [error] field. *)
Definition error_text (ex : exn) : str :=
  match ex with
  | SearchError msg => msg
  | _ => utf8 "Unexpected error: " ++ exn_str ex
  end.

Section Orchestrator.
Variable s : site.
Variable e : env.
(** The four steps, each free to return or to raise anything. *)
Variable locate : M str.
Variable pause : M unit.
Variable extract : str -> M str.
Variable cleaner : str -> str -> M str.

(** The body of the [try]. *)
Definition attempt (query : str) (clean verbose : bool) (start_time : pyfloat)
    : M (gmap string value) :=
  tab_result ← locate;
  when verbose (print (utf8 "[INFO] Tab status: " ++ tab_result));;
  when verbose
    (print (utf8 "[INFO] Please manually enter the query in " ++ utf8 (site_name s)
            ++ utf8 " and press Enter");;
     print (utf8 "[INFO] Waiting 5 seconds for manual input...");;
     pause);;
  when verbose (print (utf8 "[INFO] Extracting content..."));;
  content ← extract query;
  when verbose
    (print (utf8 "[INFO] Raw content extracted: " ++ decimal (len content)
            ++ utf8 " characters"));;
  content ←
    (if clean then
       when verbose (print (utf8 "[INFO] Cleaning content..."));;
       content ← cleaner content query;
       when verbose
         (print (utf8 "[INFO] Cleaned content: " ++ decimal (len content)
                 ++ utf8 " characters"));;
       mret content
     else mret content);
  now ← time_time;
  stamp ← timestamp e "%Y-%m-%d %H:%M:%S";
  mret (success_record query content clean (now - start_time)%Z stamp).

(** The two [except] clauses. *)
Definition recover (query : str) (start_time : pyfloat) (ex : exn)
    : M (gmap string value) :=
  now ← time_time;
  stamp ← timestamp e "%Y-%m-%d %H:%M:%S";
  mret (failure_record query (error_text ex) (now - start_time)%Z stamp).

(** The announcements ahead of the [try]. *)
Definition announce (query : str) (verbose : bool) : M unit :=
  when verbose
    (print (utf8 "[INFO] Starting " ++ utf8 (site_name s) ++ utf8 " search for: " ++ query);;
     print (utf8 "[INFO] Checking Chrome and " ++ utf8 (site_name s) ++ utf8 " tab...")).

Definition orchestrate (query : str) (clean verbose : bool) : M (gmap string value) :=
  start_time ← time_time;
  announce query verbose;;
  try_except (attempt query clean verbose start_time) (recover query start_time).

End Orchestrator.

Section Program.
Context `{Unicode}.

Definition search (s : site) (e : env) (query : str) (clean verbose : bool)
    : M (gmap string value) :=
  orchestrate s e
    (find_tab s e)
    (time_sleep e 5)
    (fun query => extract_content s e (Some query))
    (fun content query => mret (clean_content content (Some query)))
    query clean verbose.

Definition search_deepseek := search deepseek.
Definition search_doubao := search doubao.

(** [re.sub(r'[^\w\s-]', '', query).replace(' ', '_')[:50]] *)
Definition query_slug (query : str) : str :=
  take 50
    (List.map (fun c => if c =? 0x20 then 0x5F else c)
       (List.filter (fun c => is_word c || py_isspace c || (c =? 0x2D)) query)).

(** Whether every string of a record can be written to a UTF-8 file. *)
Definition record_encodable (results : gmap string value) : bool :=
  forallb (fun kv => match snd kv with VStr text => encodable text | _ => true end)
          (map_to_list results).

(** [with open(path, 'w', encoding='utf-8') as f: json.dump(results, f, ...)]:
    opening can fail, and leaves nothing; a string that cannot be encoded
    breaks the dump off, and leaves the file opened. *)
Definition dump (e : env) (results : gmap string value) (path : str) : M unit := fun w =>
  match open_error e path with
  | Some msg => (Raised (OtherException msg), w)
  | None =>
    if record_encodable results
    then (Ok tt, World (temp_files w) (stdout w) (stderr w) (clock w)
                   (saved w ++ [(path, Some results)]))
    else (Raised cannot_encode,
          World (temp_files w) (stdout w) (stderr w) (clock w) (saved w ++ [(path, None)]))
  end.

Definition default_path (s : site) (e : env) (results : gmap string value) : M str :=
  stamp ← timestamp e "%Y%m%d_%H%M%S";
  query ← (match results !! "query" with
           | Some (VStr q) => mret q
           | None => mret (utf8 "unknown")
           | Some _ => raise (OtherException (utf8 "expected string or bytes-like object"))
           end);
  mret (utf8 "/tmp/" ++ utf8 (site_slug s) ++ utf8 "_" ++ query_slug query
        ++ utf8 "_" ++ stamp ++ utf8 ".json").

Definition save_results (s : site) (e : env) (results : gmap string value)
    (output_file : option str) : M str :=
  output_file ←
    (match output_file with
     | Some path => if is_empty path then default_path s e results else mret path
     | None => default_path s e results
     end);
  dump e results output_file;;
  mret output_file.

(** ** The command line *)

(** The [Namespace] that [parse_args] returns. *)
Record arguments := Namespace {
  arg_query : str;
  arg_clean : bool;
  arg_verbose : bool;
  arg_output : option str;
  arg_text_only : bool
}.

(** [results[key]] *)
Definition subscript (results : gmap string value) (key : string) : M value :=
  match results !! key with
  | Some v => mret v
  | None => raise (OtherException (utf8 key))       (* KeyError *)
  end.

Definition truth (v : value) : bool :=
  match v with
  | VBool b => b
  | VStr s => negb (is_empty s)
  | VInt n => negb (n =? 0)
  | VFloat x => negb (x =? 0)%Z
  end.

(** [str(v)], also what an f-string field without a format makes of [v] *)
Definition py_str (e : env) (v : value) : str :=
  match v with
  | VBool true => utf8 "True"
  | VBool false => utf8 "False"
  | VStr s => s
  | VInt n => decimal n
  | VFloat x => float_format e "" x
  end.

(** [f"{v:.2f}"] *)
Definition format_2f (e : env) (v : value) : M str :=
  match v with
  | VFloat x => mret (float_format e ".2f" x)
  | VInt n => mret (float_format e ".2f" (Z.of_N n))
  | VBool b => mret (float_format e ".2f" (if b then 1 else 0)%Z)
  | VStr _ => raise (OtherException (utf8 "Unknown format code 'f' for object of type 'str'"))
  end.

Definition eprint (line : str) : M unit := fun w => (Ok tt, print_stderr line w).

(** How the process ends: with a status, by [sys.exit], by reaching the
    end of [main] or on an [Exception] nobody caught; or on an interrupt
    from the keyboard that nobody caught. *)
Inductive ending :=
| Exited (status : N)
| Interrupted.

(** The body of [main] once the arguments are parsed; the value returned
    is the status the process exits with, 1 for the two [sys.exit(1)]. *)
Definition main_body (s : site) (e : env) (args : arguments) : M N :=
  if negb (is_macos e) then
    eprint (utf8 "Error: This tool requires macOS");; mret 1
  else
    results ← search s e (arg_query args) (arg_clean args) (arg_verbose args);
    success ← subscript results "success";
    if truth success then
      if arg_text_only args then
        content ← subscript results "content"; print (py_str e content);; mret 0
      else
        when (arg_verbose args)
          (print ([NL] ++ utf8 "=== DOUBAO SEARCH RESULTS ===");;
           query ← subscript results "query";
           print (utf8 "Query: " ++ py_str e query);;
           length ← subscript results "length";
           print (utf8 "Length: " ++ py_str e length ++ utf8 " characters");;
           elapsed ← subscript results "elapsed_time";
           elapsed ← format_2f e elapsed;
           print (utf8 "Time: " ++ elapsed ++ utf8 " seconds");;
           stamp ← subscript results "timestamp";
           print (utf8 "Timestamp: " ++ py_str e stamp);;
           print (utf8 "==============================");;
           print []);;
        content ← subscript results "content"; print (py_str e content);;
        when (arg_verbose args)
          (print [];; print (utf8 "=============================="));;
        match arg_output args with
        | Some path =>
          if is_empty path then mret 0
          else
            saved_to ← save_results s e results (Some path);
            when (arg_verbose args) (print (utf8 "[INFO] Results saved to: " ++ saved_to));;
            mret 0
        | None => mret 0
        end
    else
      error ← subscript results "error";
      eprint (utf8 "Error: " ++ py_str e error);; mret 1.

(** The process: an exception nobody catches ends it with a traceback,
    an [Exception] with status 1, an interrupt from the keyboard as the
    interrupt does. *)
Definition main (s : site) (e : env) (args : arguments) (w : world) : ending * world :=
  match main_body s e args w with
  | (Ok status, w') => (Exited status, w')
  | (Raised ex, w') =>
    (if is_exception ex then Exited 1 else Interrupted,
     print_stderr (utf8 "Traceback (most recent call last):") w')
  end.

End Program.

(** ** Derived descriptions, used to state the results *)

(** What [execute_applescript] makes of a run of the interpreter. *)
Definition bridge_result (r : run_outcome) : outcome str :=
  match r with
  | Completed out => Ok (strip out)
  | Failed _ err => Raised (SearchError (utf8 "AppleScript execution failed: " ++ err))
  | NotRun msg => Raised (SearchError (utf8 "Failed to execute AppleScript: " ++ msg))
  end.

(** The test on ["ERROR:"] that [find_deepseek_tab] and [extract_content]
    apply to what the bridge returns. *)
Definition checked (o : outcome str) : outcome str :=
  match o with
  | Ok result => if contains (utf8 "ERROR:") result then Raised (SearchError result) else Ok result
  | Raised ex => Raised ex
  end.

(** The world with one more script file in the temporary directory. *)
Definition with_temp_file (name : nat) (w : world) : world :=
  World ({[name]} ∪ temp_files w) (stdout w) (stderr w) (clock w) (saved w).

(** A query as the command line delivers it when the argument is the
    single byte FF: the lone surrogate U+DCFF. *)
Definition undecodable_query : str := [0xDCFF].

(** An interpreter in front of a browser with one matching tab showing
    [text], or none, that hands a page script to the tab as its JavaScript
    reads and prints the script's value.  It serves to run the model and
    to show hypotheses met; no result assumes that the bridge is this
    one. *)
Definition as_read (text : option str) (script : applescript) : run_outcome :=
  match script with
  | FindTab s => locate_script (fun _ => text) s
  | RunInTab s js_code =>
    match text with
    | None => Completed (tab_not_found s ++ [NL])
    | Some shown => Completed (run_page js_code shown ++ [NL])
    end
  end.

(** Surroundings with that interpreter, a supported platform, nobody at
    the keyboard and a disk that takes every file. *)
Definition one_tab (text : option str) : env :=
  Env (as_read text) (fun _ _ => utf8 "2024-01-01 00:00:00")
      (fun _ _ => utf8 "0.00") true false (fun _ => None).

(** The same with the operator interrupting the pause. *)
Definition interrupting (text : option str) : env :=
  Env (as_read text) (fun _ _ => utf8 "2024-01-01 00:00:00")
      (fun _ _ => utf8 "0.00") true true (fun _ => None).

(** The same with a disk on which no file can be opened for writing. *)
Definition read_only (text : option str) : env :=
  Env (as_read text) (fun _ _ => utf8 "2024-01-01 00:00:00")
      (fun _ _ => utf8 "0.00") true false (fun _ => Some (utf8 "Read-only file system")).

Definition empty_world : world := World ∅ [] [] 0%Z [].

(** A page that shows the answer being prepared. *)
Definition loading_page : str := utf8 "Loading..." ++ [NL].

Definition quiet_arguments : arguments :=
  Namespace (utf8 "what is new") true false None false.

(** Two lines that both pass the cleaner's filter. *)
Definition two_lines : str :=
  utf8 "first line of the answer" ++ [NL] ++ utf8 "Second line, with the Query".

(** [^参考 \d+ 篇资料$] *)
Definition references_pattern : pattern :=
  Pattern (lits "参考 " ++ [Digits] ++ lits " 篇资料") true.

(** ** Further descriptions, for the properties beyond the cleaner's *)



(** A text with a first and a last character that [f] spares. *)
Definition firm (f : char -> bool) (s : str) : Prop :=
  (exists a t, s = a :: t /\ f a = false) /\
  (exists t c, s = t ++ [c] /\ f c = false).

(** A query as [lower] matches it in a line. *)
Definition mentions `{Unicode} (q l : str) : bool := contains (lower q) (lower l).

(** An answer of one short line. *)
Definition short_answer : str := utf8 "  Yes.  " ++ [NL] ++ utf8 "是的。".


(** A page on which the query stands before an answer with runs of white
    space. *)
Definition spaced_page : str :=
  utf8 "menu" ++ [NL] ++ utf8 "what is new  in   the" ++ [NL; NL] ++ utf8 " answer  ".

(** The world after a line is printed. *)
Definition add_stdout (line : str) (w : world) : world :=
  World (temp_files w) (stdout w ++ [line]) (stderr w) (clock w) (saved w).

(** Whether [main] calls [save_results]: not with [--text-only], and
    only with an [--output] that is not empty. *)
Definition saves (args : arguments) : bool :=
  negb (arg_text_only args)
  && match arg_output args with
     | Some path => negb (is_empty path)
     | None => false
     end.

(** Whether a record says the search succeeded, and the content that
    [main] prints for it without [verbose]: the [print] of a content that
    the standard output cannot encode raises, and prints nothing. *)
Definition succeeded (results : gmap string value) : bool :=
  match results !! "success" with
  | Some (VBool true) => true
  | _ => false
  end.

Definition printed_content (results : gmap string value) : list str :=
  match results !! "success", results !! "content" with
  | Some (VBool true), Some (VStr content) => if encodable content then [content] else []
  | _, _ => []
  end.

(** The characters a slug is made of. *)
Definition slug_char `{Unicode} (c : char) : Prop :=
  c <> 0x20 /\ (is_word c = true \/ py_isspace c = true \/ c = 0x2D \/ c = 0x5F).

(** A page with an answer that the cleaner keeps. *)
Definition news_page : str :=
  utf8 "what is new" ++ [NL] ++ utf8 "Plenty is new this week, here is the list" ++ [NL].

Definition saving_arguments : arguments :=
  Namespace (utf8 "what is new") true false (Some (utf8 "out.json")) false.

Definition text_only_arguments : arguments :=
  Namespace (utf8 "what is new") true false (Some (utf8 "out.json")) true.

(** The script that [extract_content] sends for a query. *)
Definition script_for (query : option str) : page_script :=
  match query with
  | Some q => if is_empty q then Unscoped else QueryScoped q
  | None => Unscoped
  end.


(** A computation that, from any world, ends in a world related to it by
    [R] with an outcome that satisfies [Q]. *)
Definition keeps {A} (R : relation world) (Q : outcome A -> Prop) (m : M A) : Prop :=
  forall w, R w (snd (m w)) /\ Q (fst (m w)).

(** An outcome that is a value with [good] or an exception with [bad]. *)
Definition outcome_is {A} (good : A -> Prop) (bad : exn -> Prop) (o : outcome A) : Prop :=
  match o with
  | Ok a => good a
  | Raised ex => bad ex
  end.

(** What a run of [search] leaves alone: the diagnostic stream and the
    saved files, the standard output without [verbose], the temporary
    directory when the query can be written. *)
Definition undisturbed (verbose : bool) (query : str) : relation world :=
  fun w w' =>
    stderr w' = stderr w /\ saved w' = saved w /\
    (verbose = false -> stdout w' = stdout w) /\
    (encodable query = true -> temp_files w' = temp_files w).

(** The exceptions that only a verbose run meets: the interrupt of the
    pause, and a line that the standard output cannot encode. *)
Definition verbose_only (verbose : bool) (ex : exn) : Prop :=
  verbose = true /\ (ex = KeyboardInterrupt \/ ex = cannot_encode).

(** The exceptions of the bridge calls, and those of a run of the [try]
    body. *)
Definition bridge_error (ex : exn) : Prop := exists msg, ex = SearchError msg /\ msg <> [].

Definition attempt_error (verbose : bool) (ex : exn) : Prop :=
  bridge_error ex \/ verbose_only verbose ex.

(** The records [search] returns: the failure record of a message that
    is not empty, or the success record of what [extract_content]
    returned, cleaned on demand. *)
Definition search_record `{Unicode} (s : site) (e : env) (query : str) (clean : bool)
    (results : gmap string value) : Prop :=
  (exists msg elapsed stamp,
     msg <> [] /\ results = failure_record query msg elapsed stamp) \/
  (exists raw w0 w1 elapsed stamp,
     extract_content s e (Some query) w0 = (Ok raw, w1) /\
     results = success_record query
                 (if clean then clean_content raw (Some query) else raw)
                 clean elapsed stamp).

(** What the part of [main] around the call of [save_results] leaves
    alone, and the exceptions that [except Exception] would catch. *)
Definition saved_alone : relation world := fun w w' => saved w' = saved w.

Definition ordinary (ex : exn) : Prop := is_exception ex = true.

(** What the call of [save_results] in [main] does to the saved files: one
    more file under [path] at most, holding [results] or, the dump broken
    off, nothing. *)
Definition saved_at_most (path : str) (results : gmap string value) : relation world :=
  fun w w' =>
    saved w' = saved w \/
    exists written,
      saved w' = saved w ++ [(path, written)] /\ (written = Some results \/ written = None).

(** The last line that an uncaught exception leaves on the diagnostic
    stream begins the traceback. *)
Definition traceback : str := utf8 "Traceback (most recent call last):".
(** ** Facts about the text operations *)

Section TextFacts.
Variable f : char -> bool.

Lemma drop_while_split (s : str) :
  exists pre, s = pre ++ drop_while f s.
Proof.
  induction s as [|c s IH]; simpl.
  - exists []. reflexivity.
  - destruct (f c).
    + destruct IH as [pre E]. exists (c :: pre). simpl. congruence.
    + exists []. reflexivity.
Qed.

Lemma drop_while_head (s : str) c t :
  drop_while f s = c :: t -> f c = false.
Proof.
  induction s as [|x s IH]; simpl; [discriminate|].
  destruct (f x) eqn:E; [assumption|].
  intros [= -> _]. exact E.
Qed.

Lemma drop_while_In (s : str) c : In c (drop_while f s) -> In c s.
Proof.
  destruct (drop_while_split s) as [pre E]. intros Hc.
  rewrite E. apply in_or_app. right. exact Hc.
Qed.

Lemma trim_with_In (s : str) c : In c (trim_with f s) -> In c s.
Proof.
  unfold trim_with. intros Hc.
  apply in_rev in Hc. apply drop_while_In in Hc.
  apply in_rev in Hc. apply drop_while_In in Hc. exact Hc.
Qed.

(** Trimming a trimmed string changes nothing. *)
Lemma trim_with_idem (s : str) : trim_with f (trim_with f s) = trim_with f s.
Proof.
  unfold trim_with.
  remember (drop_while f s) as a eqn:Ea.
  destruct (drop_while_split (rev a)) as [pre Epre].
  remember (drop_while f (rev a)) as b eqn:Eb.
  destruct b as [|c t]; [reflexivity|].
  assert (Hc : f c = false) by (eapply drop_while_head; symmetry; exact Eb).
  assert (Ha : a = rev (c :: t) ++ rev pre).
  { rewrite <- rev_app_distr, <- Epre, rev_involutive. reflexivity. }
  assert (Hfix : drop_while f (rev (c :: t)) = rev (c :: t)).
  { destruct (rev (c :: t)) as [|x u] eqn:Er.
    - reflexivity.
    - simpl in Ha. symmetry in Ea. rewrite Ha in Ea.
      apply drop_while_head in Ea. simpl. rewrite Ea. reflexivity. }
  rewrite Hfix, rev_involutive. simpl. rewrite Hc. reflexivity.
Qed.
End TextFacts.

Lemma split_not_nil sep s : split sep s <> [].
Proof.
  destruct s as [|c s]; simpl; [discriminate|].
  destruct (c =? sep); [discriminate|].
  destruct (split sep s); discriminate.
Qed.

(** No piece of a split contains the separator. *)
Lemma split_free sep s : Forall (fun l => ~ In sep l) (split sep s).
Proof.
  induction s as [|c s IH]; simpl.
  - constructor; [intros []|constructor].
  - destruct (N.eqb_spec c sep) as [->|Hne].
    + constructor; [intros []|exact IH].
    + destruct (split sep s) as [|l ls]; inversion IH; subst.
      * constructor; [|constructor]. intros [->|[]]. congruence.
      * constructor; [|assumption]. intros [E|Hin]; [congruence|auto].
  Qed.

Lemma split_app_sep sep l s :
  ~ In sep l -> split sep (l ++ sep :: s) = l :: split sep s.
Proof.
  induction l as [|c l IH]; simpl; intros Hl.
  - rewrite N.eqb_refl. reflexivity.
  - destruct (N.eqb_spec c sep) as [->|Hne]; [tauto|].
    rewrite IH by tauto. reflexivity.
Qed.

Lemma split_one sep l : ~ In sep l -> split sep l = [l].
Proof.
  induction l as [|c l IH]; simpl; intros Hl; [reflexivity|].
  destruct (N.eqb_spec c sep) as [->|Hne]; [tauto|].
  rewrite IH by tauto. reflexivity.
Qed.


Lemma split_join ls :
  Forall (fun l => ~ In NL l) ls -> split NL (join [NL; NL] ls) = spaced ls.
Proof.
  induction 1 as [|l rest Hl Hrest IH]; [reflexivity|].
  destruct rest as [|l' rest'].
  - simpl. apply split_one. exact Hl.
  - change (join [NL; NL] (l :: l' :: rest'))
      with (l ++ NL :: NL :: join [NL; NL] (l' :: rest')).
    rewrite split_app_sep by exact Hl.
    change (split NL (NL :: join [NL; NL] (l' :: rest')))
      with ([] :: split NL (join [NL; NL] (l' :: rest'))).
    rewrite IH. reflexivity.
Qed.

(** ** Facts about the cleaner *)

Section CleanerFacts.
Context `{Unicode}.


Lemma collect_cons raw rest :
  collect (raw :: rest) =
  if keep (strip raw) then strip raw :: collect rest else collect rest.
Proof.
  unfold keep. simpl.
  destruct (is_empty (strip raw)); simpl; [reflexivity|].
  destruct (excluded (strip raw)); simpl; [reflexivity|].
  destruct (10 <? len (strip raw)); simpl; reflexivity.
Qed.

Lemma collect_settled lines :
  Forall (fun l => ~ In NL l) lines -> Forall settled (collect lines).
Proof.
  induction 1 as [|raw rest Hraw _ IH]; [constructor|].
  rewrite collect_cons. destruct (keep (strip raw)) eqn:K; [|exact IH].
  constructor; [|exact IH].
  split; [apply trim_with_idem|]. split; [exact K|].
  intros Hin. apply Hraw. eapply trim_with_In. exact Hin.
Qed.

Lemma collect_fixed ls : Forall settled ls -> collect ls = ls.
Proof.
  induction 1 as [|l rest (Hs & Hk & _) _ IH]; [reflexivity|].
  rewrite collect_cons, Hs, Hk, IH. reflexivity.
Qed.

Lemma collect_spaced ls : collect (spaced ls) = collect ls.
Proof.
  induction ls as [|l rest IH]; [reflexivity|].
  destruct rest as [|l' rest']; [reflexivity|].
  change (spaced (l :: l' :: rest')) with (l :: [] :: spaced (l' :: rest')).
  rewrite (collect_cons l (_ :: _)), (collect_cons [] _), IH.
  change (keep (strip [])) with false. cbv iota.
  rewrite (collect_cons l (_ :: _)). reflexivity.
Qed.

(** Cleaning the joined lines gives the lines back. *)
Lemma collect_split_join ls :
  Forall settled ls -> collect (split NL (join SEP ls)) = ls.
Proof.
  intros Hs. unfold SEP. rewrite split_join.
  - rewrite collect_spaced. apply collect_fixed. exact Hs.
  - eapply Forall_impl; [exact Hs|]. intros l (_ & _ & Hl). exact Hl.
Qed.

Lemma settled_not_nil l : settled l -> l <> [].
Proof. intros (_ & Hk & _) ->. discriminate Hk. Qed.

Lemma filter_spaced ls :
  Forall settled ls ->
  List.filter (fun l => negb (is_empty l)) (spaced ls) = ls.
Proof.
  induction 1 as [|l rest Hl Hrest IH]; [reflexivity|].
  pose proof (settled_not_nil _ Hl) as Hne.
  destruct rest as [|l' rest'].
  - simpl. destruct l; [congruence|reflexivity].
  - change (spaced (l :: l' :: rest')) with (l :: [] :: spaced (l' :: rest')).
    destruct l as [|c l]; [congruence|].
    change ((c :: l) :: List.filter (fun l => negb (is_empty l)) (spaced (l' :: rest'))
            = (c :: l) :: l' :: rest').
    rewrite IH. reflexivity.
Qed.

Lemma focus_Some q ls r :
  focus q ls = Some r ->
  (exists pre, ls = pre ++ r) /\ focus q r = Some r.
Proof.
  induction ls as [|l rest IH]; simpl; [discriminate|].
  destruct (contains q (lower l)) eqn:C.
  - intros [= <-]. split; [exists []; reflexivity|].
    simpl. rewrite C. reflexivity.
  - intros Hf. destruct (IH Hf) as [[pre E] Hr].
    split; [exists (l :: pre); simpl; congruence|exact Hr].
Qed.

Lemma focus_None q ls :
  focus q ls = None <-> Forall (fun l => contains q (lower l) = false) ls.
Proof.
  induction ls as [|l rest IH]; simpl.
  - split; [constructor|reflexivity].
  - destruct (contains q (lower l)) eqn:C.
    + split; [discriminate|]. intros HF. inversion HF; congruence.
    + rewrite IH. split; [intros HF; constructor; assumption|].
      intros HF. inversion HF; assumption.
Qed.

(** What [clean_content] joins is a tail of [cleaned_lines] that the
    focusing step maps to itself. *)
Lemma retained_tail content query :
  let cleaned_lines := collect (split NL content) in
  let r := retained content query in
  (exists pre, cleaned_lines = pre ++ r) /\
  (forall q, query = Some q -> is_empty q = false -> r <> [] ->
     focus (lower q) r = Some r \/ focus (lower q) r = None).
Proof.
  unfold retained. cbv zeta.
  set (cl := collect (split NL content)).
  destruct query as [q|]; [|split; [exists []; reflexivity|discriminate]].
  destruct (is_empty q) eqn:Eq; simpl.
  { split; [exists []; reflexivity|]. intros q' [= <-]. congruence. }
  destruct (is_empty cl) eqn:Ecl; simpl.
  { split; [exists []; reflexivity|]. destruct cl; [congruence|discriminate]. }
  destruct (focus (lower q) cl) as [r|] eqn:F.
  - destruct (focus_Some _ _ _ F) as [Hpre Hr].
    split; [exact Hpre|]. intros q' [= <-] _ _. left. exact Hr.
  - split; [exists []; reflexivity|]. intros q' [= <-] _ _. right. exact F.
Qed.

Lemma retained_settled content query :
  Forall settled (retained content query).
Proof.
  destruct (retained_tail content query) as [[pre E] _].
  pose proof (collect_settled (split NL content) (split_free NL content)) as HS.
  rewrite E in HS. apply Forall_app in HS. apply HS.
Qed.

Lemma retained_join content query :
  retained (join SEP (retained content query)) query = retained content query.
Proof.
  destruct (retained_tail content query) as [_ Hfocus].
  pose proof (retained_settled content query) as HS.
  remember (retained content query) as r eqn:Er.
  unfold retained at 1. rewrite (collect_split_join r HS).
  destruct query as [q|]; [|reflexivity].
  destruct (is_empty q) eqn:Eq; simpl; [reflexivity|].
  destruct r as [|l rest] eqn:Erl; simpl is_empty; cbv iota; simpl negb;
    cbv iota; [reflexivity|].
  destruct (Hfocus q eq_refl Eq) as [-> | ->]; [discriminate|..]; reflexivity.
Qed.
End CleanerFacts.

(** ** The cleaner's properties *)

Section CleanerProperties.
Context `{Unicode}.

Lemma existsb_false_Forall {A} (f : A -> bool) (l : list A) :
  existsb f l = false -> Forall (fun x => f x = false) l.
Proof.
  induction l as [|x l IH]; simpl; [constructor|].
  destruct (f x) eqn:E; [discriminate|]. intros Hl. constructor; auto.
Qed.

Lemma settled_line_ok l : settled l -> line_ok l.
Proof.
  intros (Hs & Hk & _). unfold keep in Hk.
  apply andb_prop in Hk as [Hk Htext]. apply andb_prop in Hk as [Hk Hlen].
  apply andb_prop in Hk as [Hne Hex].
  repeat split.
  - rewrite Hs. intros ->. discriminate Hne.
  - apply N.ltb_lt. exact Hlen.
  - apply existsb_false_Forall. apply negb_true_iff in Hex. exact Hex.
  - apply orb_prop in Htext. exact Htext.
Qed.

(** The non-blank lines of the cleaner's output are the lines it
    retained. *)
Lemma text_lines_clean_content content query :
  text_lines (clean_content content query) =
  if is_empty content then [] else retained content query.
Proof.
  unfold clean_content, text_lines.
  destruct content as [|c content]; [reflexivity|]. cbv iota beta.
  change (is_empty (c :: content)) with false. cbv iota.
  pose proof (retained_settled (c :: content) query) as HS.
  unfold SEP. rewrite split_join.
  - apply filter_spaced. exact HS.
  - eapply Forall_impl; [exact HS|]. intros l (_ & _ & Hl). exact Hl.
Qed.

(** C1. Whatever the content and the query, every non-blank line of the
    text [clean_content] returns is non-empty after trimming, longer than
    10 characters, matched by none of the exclusion patterns, and has a CJK
    ideograph or an ASCII letter or digit. *)
Theorem clean_content_lines_ok content query :
  Forall line_ok (text_lines (clean_content content query)).
Proof.
  rewrite text_lines_clean_content.
  destruct (is_empty content); [constructor|].
  eapply Forall_impl; [apply retained_settled|]. apply settled_line_ok.
Qed.

(** C2. Cleaning is idempotent: cleaning the cleaner's output again, with
    the same query, returns it unchanged.  This holds for every content. *)
Theorem clean_content_idempotent content query :
  clean_content (clean_content content query) query = clean_content content query.
Proof.
  unfold clean_content.
  destruct (is_empty content) eqn:E; [rewrite E; reflexivity|].
  destruct (is_empty (join SEP (retained content query))); [reflexivity|].
  rewrite retained_join. reflexivity.
Qed.

(** C6. With a non-empty query, at least one line surviving the filter and
    no surviving line whose lowercase form contains the lowercase query,
    the result is the join of all the surviving lines. *)
Theorem clean_content_no_anchor content q :
  q <> [] ->
  collect (split NL content) <> [] ->
  Forall (fun l => contains (lower q) (lower l) = false) (collect (split NL content)) ->
  clean_content content (Some q) = join SEP (collect (split NL content)).
Proof.
  intros Hq Hlines Hnone. unfold clean_content.
  destruct content as [|c content]; [exfalso; apply Hlines; reflexivity|].
  change (is_empty (c :: content)) with false. cbv iota.
  unfold retained. apply focus_None in Hnone. rewrite Hnone.
  destruct (negb (is_empty q) && negb (is_empty (collect (split NL (c :: content)))));
    reflexivity.
Qed.

(** C7. On the three lines [A], [query line B], [C] with the query
    [query], the output is the line [query line B]: it starts there, and
    the line before it is gone. *)
Theorem clean_content_anchor_example :
  clean_content (utf8 "A" ++ [NL] ++ utf8 "query line B" ++ [NL] ++ utf8 "C")
                (Some (utf8 "query"))
  = utf8 "query line B".
Proof.
  unfold clean_content. change (is_empty _) with false. cbv iota.
  assert (E : collect (split NL (utf8 "A" ++ [NL] ++ utf8 "query line B" ++ [NL] ++ utf8 "C"))
              = [utf8 "query line B"]) by (vm_compute; reflexivity).
  unfold retained. rewrite E.
  change (negb (is_empty (utf8 "query")) && negb (is_empty [utf8 "query line B"])) with true.
  cbv iota. unfold focus.
  destruct (contains (lower (utf8 "query")) (lower (utf8 "query line B"))); reflexivity.
Qed.

(** C10. The result depends on the query through its lowercase form only,
    given of the runtime's [str.lower] that lowering the lowered query
    changes nothing and that the lowered query is empty exactly when the
    query is. *)
Theorem clean_content_query_lower content q :
  lower (lower q) = lower q ->
  is_empty (lower q) = is_empty q ->
  clean_content content (Some q) = clean_content content (Some (lower q)).
Proof.
  intros Hidem Hnil. unfold clean_content, retained.
  rewrite Hidem, Hnil. reflexivity.
Qed.

End CleanerProperties.

Lemma clean_content_no_anchor_witness :
  @clean_content ascii_unicode two_lines (Some (utf8 "absent"))
  = join SEP (@collect ascii_unicode (split NL two_lines)).
Proof.
  apply (@clean_content_no_anchor ascii_unicode two_lines (utf8 "absent")).
  - discriminate.
  - vm_compute. discriminate.
  - vm_compute. repeat constructor.
Defined.

Lemma clean_content_query_lower_witness :
  @clean_content ascii_unicode two_lines (Some (utf8 "QUERY"))
  = @clean_content ascii_unicode two_lines (Some (utf8 "query")).
Proof.
  apply (@clean_content_query_lower ascii_unicode two_lines (utf8 "QUERY"));
    vm_compute; reflexivity.
Defined.

Example clean_content_focus_runs :
  @clean_content ascii_unicode two_lines (Some (utf8 "QUERY"))
  = utf8 "Second line, with the Query".
Proof. vm_compute. reflexivity. Qed.

Example clean_content_drops_chrome :
  @clean_content ascii_unicode
    (utf8 "  新对话  " ++ [NL] ++ utf8 "参考 12 篇资料" ++ [NL] ++ utf8 "ERROR: tab not found"
     ++ [NL] ++ utf8 "----------------" ++ [NL] ++ utf8 "short" ++ [NL]
     ++ utf8 "深度求索是一家人工智能公司" ++ [NL] ++ [NL] ++ utf8 "   plain text of the answer  ")
    None
  = utf8 "深度求索是一家人工智能公司" ++ [NL; NL] ++ utf8 "plain text of the answer".
Proof. vm_compute. reflexivity. Qed.

(** The pattern with a digit class, on subjects around its edges. *)
Example references_pattern_runs :
  nth_error exclude_patterns 15 = Some references_pattern /\
  @re_match ascii_unicode references_pattern (utf8 "参考 12 篇资料") = true /\
  @re_match ascii_unicode references_pattern (utf8 "参考 12 篇资料" ++ [NL]) = true /\
  @re_match ascii_unicode references_pattern (utf8 "参考  篇资料") = false /\
  @re_match ascii_unicode references_pattern (utf8 "参考 12 篇资料了") = false /\
  @excluded ascii_unicode (utf8 "参考 12345 篇资料") = true /\
  @excluded ascii_unicode (utf8 "ERROR: DeepSeek tab not found") = true /\
  @excluded ascii_unicode (utf8 "更多内容请看下面的详细说明") = false.
Proof. vm_compute. repeat split; reflexivity. Qed.

(** ** Facts about the bridge *)

Lemma world_eta w :
  World (temp_files w) (stdout w) (stderr w) (clock w) (saved w) = w.
Proof. destruct w; reflexivity. Qed.

Lemma unlink_fresh w :
  snd (unlink (fresh (temp_files w)) (with_temp_file (fresh (temp_files w)) w)) = w.
Proof.
  unfold unlink, with_temp_file. simpl.
  assert (E : ({[fresh (temp_files w)]} ∪ temp_files w) ∖ {[fresh (temp_files w)]}
              = temp_files w).
  { pose proof (is_fresh (temp_files w)) as Hfresh. apply set_eq. intros x.
    rewrite elem_of_difference, elem_of_union, elem_of_singleton.
    split.
    - intros [[->|Hx] Hne]; [congruence|exact Hx].
    - intros Hx. split; [right; exact Hx|]. intros ->. exact (Hfresh Hx). }
  rewrite E. apply world_eta.
Qed.

(** Once the script is written, a call of [execute_applescript] leaves the
    world as it found it, the temporary file included, whatever the
    interpreter does. *)
Lemma execute_applescript_run e script w :
  encodable (spliced script) = true ->
  execute_applescript e script w = (bridge_result (osascript e script), w).
Proof.
  intros Henc. pose proof (unlink_fresh w) as Hw.
  unfold execute_applescript, try_except, try_finally, subprocess_run, write,
    mbind, M_bind, mret, M_ret, raise, NamedTemporaryFile.
  rewrite Henc. fold (with_temp_file (fresh (temp_files w)) w).
  unfold unlink in *. simpl in Hw.
  destruct (osascript e script) as [out|msg err|msg]; simpl; rewrite Hw; reflexivity.
Qed.

(** When the script cannot be written, the call raises and the file it
    created stays. *)
Lemma execute_applescript_unwritten e script w :
  encodable (spliced script) = false ->
  exists msg,
    execute_applescript e script w
    = (Raised (SearchError msg), with_temp_file (fresh (temp_files w)) w).
Proof.
  intros Henc.
  unfold execute_applescript, try_except, try_finally, write,
    mbind, M_bind, mret, M_ret, raise, NamedTemporaryFile.
  rewrite Henc. simpl. eexists. reflexivity.
Qed.

Lemma find_tab_run s e w :
  find_tab s e w = (checked (bridge_result (osascript e (FindTab s))), w).
Proof.
  unfold find_tab, mbind, M_bind.
  rewrite execute_applescript_run by reflexivity.
  destruct (bridge_result (osascript e (FindTab s))) as [result|ex]; simpl; [|reflexivity].
  destruct (contains (utf8 "ERROR:") result); reflexivity.
Qed.

Lemma extract_content_run s e js_code w :
  encodable (spliced (RunInTab s js_code)) = true ->
  (result ← execute_applescript e (RunInTab s js_code);
   if contains (utf8 "ERROR:") result then raise (SearchError result) else mret result) w
  = (checked (bridge_result (osascript e (RunInTab s js_code))), w).
Proof.
  intros Henc. unfold mbind, M_bind.
  rewrite execute_applescript_run by exact Henc.
  destruct (bridge_result (osascript e (RunInTab s js_code))) as [result|ex]; simpl;
    [|reflexivity].
  destruct (contains (utf8 "ERROR:") result); reflexivity.
Qed.

Lemma is_prefix_contains p s : is_prefix p s = true -> contains p s = true.
Proof. destruct s; simpl; intros ->; reflexivity. Qed.

Lemma is_prefix_app p tail : is_prefix p (p ++ tail) = true.
Proof.
  induction p as [|c p IH]; simpl; [reflexivity|].
  rewrite N.eqb_refl. exact IH.
Qed.

Lemma contains_nonempty p s : contains p s = true -> p <> [] -> s <> [].
Proof. intros Hc Hp ->. destruct p; [congruence|discriminate]. Qed.

(** A message that passed the ["ERROR:"] test, or was built by
    [execute_applescript], is not empty. *)
Lemma checked_raised_nonempty r ex :
  checked (bridge_result r) = Raised ex ->
  exists msg, ex = SearchError msg /\ msg <> [].
Proof.
  destruct r as [out|m err|m]; simpl.
  - destruct (contains (utf8 "ERROR:") (strip out)) eqn:C; [|discriminate].
    intros [= <-]. eexists. split; [reflexivity|].
    eapply contains_nonempty; [exact C|discriminate].
  - intros [= <-]. eexists. split; [reflexivity|discriminate].
  - intros [= <-]. eexists. split; [reflexivity|discriminate].
Qed.

Lemma drop_while_stop f (x : str) c y :
  f c = false -> exists x', drop_while f (x ++ c :: y) = x' ++ c :: y.
Proof.
  intros Hc. induction x as [|a x IH]; simpl.
  - rewrite Hc. exists []. reflexivity.
  - destruct (f a); [exact IH|]. exists (a :: x). reflexivity.
Qed.

(** Trimming keeps a prefix that starts and ends with a character that is
    not removed. *)
Lemma trim_with_keeps f (p rest : str) a p1 p0 c :
  p = a :: p1 -> p = p0 ++ [c] -> f a = false -> f c = false ->
  exists tail, trim_with f (p ++ rest) = p ++ tail.
Proof.
  intros Hfirst Hlast Ha Hc. unfold trim_with.
  assert (E : drop_while f (p ++ rest) = p ++ rest).
  { rewrite Hfirst. simpl. rewrite Ha. reflexivity. }
  rewrite E, rev_app_distr.
  assert (Er : rev p = c :: rev p0).
  { rewrite Hlast, rev_app_distr. reflexivity. }
  rewrite Er.
  destruct (drop_while_stop f (rev rest) c (rev p0) Hc) as [x' ->].
  exists (rev x'). rewrite rev_app_distr. simpl rev at 1.
  rewrite rev_involutive, <- Hlast. reflexivity.
Qed.

Lemma index_from_none sub s i :
  index_from sub s i = None <-> contains sub s = false.
Proof.
  revert i. induction s as [|c s IH]; intros i; simpl.
  - destruct (is_prefix sub []); simpl; split; congruence.
  - destruct (is_prefix sub (c :: s)); simpl; [split; congruence|]. apply IH.
Qed.

Lemma substring_0 n text : substring 0 n text = take n text.
Proof. unfold substring. rewrite Nat.max_0_l, Nat.min_0_l, Nat.sub_0_r. reflexivity. Qed.

(** The page script's answer when the text does not have the query. *)
Lemma page_query_scoped_missing query text :
  contains query text = false ->
  page_query_scoped query text = query_not_found ++ take 5000 text.
Proof.
  intros Hc. unfold page_query_scoped, indexOf.
  apply (index_from_none query (drop 0 text) (Nat.min 0 (length text))) in Hc.
  rewrite Hc, substring_0. reflexivity.
Qed.

(** The page script's answer when no line passes its filter. *)
Lemma page_unscoped_fallback text :
  contentLines (split NL text) = [] ->
  page_unscoped text = take 5000 text.
Proof.
  intros Hnone. unfold page_unscoped. rewrite Hnone, substring_0. reflexivity.
Qed.

Lemma strip_app_newline s : strip (s ++ [NL]) = strip s.
Proof.
  unfold strip, trim_with.
  destruct (drop_while_split py_isspace s) as [pre E].
  assert (Hdw : forall t : str,
    drop_while py_isspace (t ++ [NL]) = drop_while py_isspace t ++ [NL]
    \/ (drop_while py_isspace t = [] /\ drop_while py_isspace (t ++ [NL]) = [])).
  { induction t as [|c t IH]; simpl.
    - right. split; reflexivity.
    - destruct (py_isspace c); [exact IH|]. left. reflexivity. }
  destruct (Hdw s) as [-> | [-> ->]]; [|reflexivity].
  rewrite rev_app_distr. reflexivity.
Qed.

(** What [execute_applescript] makes of a value printed with the newline
    that the interpreter adds. *)
Lemma bridge_result_printed value :
  bridge_result (Completed (value ++ [NL])) = Ok (strip value).
Proof. cbn [bridge_result]. rewrite strip_app_newline. reflexivity. Qed.

(** ** Facts about the orchestrator *)

Lemma failure_record_success query error elapsed stamp :
  failure_record query error elapsed stamp !! "success" = Some (VBool false).
Proof. unfold failure_record. apply lookup_insert_eq. Qed.

Lemma failure_record_error query error elapsed stamp :
  failure_record query error elapsed stamp !! "error" = Some (VStr error).
Proof.
  unfold failure_record.
  rewrite lookup_insert_ne by discriminate.
  rewrite lookup_insert_ne by discriminate.
  apply lookup_insert_eq.
Qed.

Lemma success_record_success query content clean elapsed stamp :
  success_record query content clean elapsed stamp !! "success" = Some (VBool true).
Proof. unfold success_record. apply lookup_insert_eq. Qed.

(** A print changes the standard output only, and nothing when it raises. *)
Lemma print_frame line w o w' :
  print line w = (o, w') ->
  stderr w' = stderr w /\ clock w' = clock w /\
  temp_files w' = temp_files w /\ saved w' = saved w /\
  (o = Raised cannot_encode /\ w' = w \/ o = Ok tt).
Proof.
  unfold print. destruct (encodable line); intros [= <- <-]; repeat split; auto.
Qed.

(** The announcements change the standard output only. *)
Lemma announce_frame s query verbose w o w' :
  announce s query verbose w = (o, w') ->
  stderr w' = stderr w /\ clock w' = clock w /\
  temp_files w' = temp_files w /\ saved w' = saved w /\
  (verbose = false -> o = Ok tt /\ w' = w).
Proof.
  unfold announce, when, mbind, M_bind, mret, M_ret, print.
  destruct verbose; [|intros [= <- <-]; repeat split; auto].
  repeat match goal with
         | |- context [encodable ?l] => destruct (encodable l)
         end; intros [= <- <-]; repeat split; discriminate.
Qed.

Section OrchestratorFacts.
Variable s : site.
Variable e : env.
Variable locate : M str.
Variable pause : M unit.
Variable extract : str -> M str.
Variable cleaner : str -> str -> M str.

(** Once the announcements are out, [orchestrate] is the [try] body when
    that returns, the failure record of what it raised when that is an
    [Exception], and the exception itself otherwise. *)
Lemma orchestrate_run query clean verbose w w1 :
  announce s query verbose w = (Ok tt, w1) ->
  orchestrate s e locate pause extract cleaner query clean verbose w =
  match attempt s e locate pause extract cleaner query clean verbose (clock w) w1 with
  | (Ok results, w') => (Ok results, w')
  | (Raised ex, w') =>
    if is_exception ex
    then (Ok (failure_record query (error_text ex) (clock w' - clock w)%Z
                (strftime e "%Y-%m-%d %H:%M:%S" (clock w'))), w')
    else (Raised ex, w')
  end.
Proof.
  intros Hannounce.
  unfold orchestrate, try_except, recover, time_time, timestamp, mbind, M_bind.
  rewrite Hannounce. cbv iota beta.
  destruct (attempt s e locate pause extract cleaner query clean verbose (clock w) w1)
    as [[results|ex] w']; [reflexivity|].
  destruct (is_exception ex); reflexivity.
Qed.

(** An exception of the announcements leaves [orchestrate] as it is. *)
Lemma orchestrate_announce_raises query clean verbose w ex w1 :
  announce s query verbose w = (Raised ex, w1) ->
  orchestrate s e locate pause extract cleaner query clean verbose w = (Raised ex, w1).
Proof.
  intros Hannounce. unfold orchestrate, time_time, mbind, M_bind.
  rewrite Hannounce. reflexivity.
Qed.

(** An exception of the first step is an exception of the [try] body. *)
Lemma attempt_locate_raises query clean verbose start w ex w' :
  locate w = (Raised ex, w') ->
  attempt s e locate pause extract cleaner query clean verbose start w = (Raised ex, w').
Proof. intros Hl. unfold attempt, mbind, M_bind. rewrite Hl. reflexivity. Qed.

End OrchestratorFacts.

(** ** The bridge, the orchestrator and the command line: results *)

(** C8, where the code falls short of it.  A query with a lone surrogate
    cannot be written to the temporary file; [execute_applescript] then
    raises, and the file it created a moment before is still there when it
    has returned: the [with] block that creates and writes the file is
    outside the [try ... finally] that unlinks it. *)
Theorem execute_applescript_leaves_temp_file e w :
  let script := RunInTab deepseek (QueryScoped undecodable_query) in
  let name := fresh (temp_files w) in
  let after := snd (execute_applescript e script w) in
  (name ∉ temp_files w) /\ (name ∈ temp_files after) /\
  exists msg, fst (execute_applescript e script w) = Raised (SearchError msg).
Proof.
  cbv zeta.
  destruct (execute_applescript_unwritten e
              (RunInTab deepseek (QueryScoped undecodable_query)) w eq_refl) as [msg ->].
  split; [apply is_fresh|]. split; [|exists msg; reflexivity].
  simpl. apply elem_of_union_l, elem_of_singleton. reflexivity.
Qed.

(** What does hold of the temporary file: when the script is written, it is
    gone on every path out of the call, whether the interpreter succeeds,
    exits with a non-zero status or cannot be run. *)
Lemma execute_applescript_cleans_up e script w :
  encodable (spliced script) = true ->
  snd (execute_applescript e script w) = w.
Proof. intros Henc. rewrite execute_applescript_run by exact Henc. reflexivity. Qed.

Lemma is_prefix_app_l a b r : is_prefix (a ++ b) r = true -> is_prefix a r = true.
Proof.
  revert r. induction a as [|x a IH]; intros r; [reflexivity|].
  destruct r as [|y r]; simpl; [discriminate|].
  intros Hp. apply andb_prop in Hp as [-> Hp]. simpl. apply IH. exact Hp.
Qed.

(** What [extract_content] returns passed the test on [ERROR:] and is
    stripped, whatever the bridge does. *)
Lemma extract_content_ok s e query w result w' :
  extract_content s e query w = (Ok result, w') ->
  contains (utf8 "ERROR:") result = false /\ strip result = result /\ w' = w.
Proof.
  unfold extract_content.
  set (js_code := match query with
                  | Some q => if is_empty q then Unscoped else QueryScoped q
                  | None => Unscoped
                  end).
  destruct (encodable (spliced (RunInTab s js_code))) eqn:Henc.
  - rewrite extract_content_run by exact Henc.
    destruct (osascript e (RunInTab s js_code)) as [out|m err|m]; simpl; [|discriminate..].
    destruct (contains (utf8 "ERROR:") (strip out)) eqn:Hc; [discriminate|].
    intros [= <- <-]. split; [exact Hc|]. split; [apply trim_with_idem|reflexivity].
  - unfold mbind, M_bind.
    destruct (execute_applescript_unwritten e (RunInTab s js_code) w Henc) as [msg ->].
    discriminate.
Qed.

Section Results.
Context `{Unicode}.

(** C4, amended.  Once the announcements are out, every [Exception] that
    the [try] body raises, from the locate, pause, extract or clean step or
    from a print between them, comes back as a record with [success] false
    whose [error] is the text of the exception, as it is for the site's own
    error class and behind [Unexpected error: ] for any other; what is not
    an [Exception], an interrupt from the keyboard during the pause, leaves
    the orchestrator as it is. *)
Theorem orchestrate_catches s e locate pause extract cleaner query clean verbose w w1 :
  announce s query verbose w = (Ok tt, w1) ->
  match attempt s e locate pause extract cleaner query clean verbose (clock w) w1 with
  | (Ok returned, w') =>
    orchestrate s e locate pause extract cleaner query clean verbose w = (Ok returned, w')
  | (Raised ex, w') =>
    if is_exception ex then
      exists results,
        orchestrate s e locate pause extract cleaner query clean verbose w
          = (Ok results, w') /\
        results !! "success" = Some (VBool false) /\
        results !! "error" = Some (VStr (error_text ex)) /\
        (error_text ex = exn_str ex \/
         error_text ex = utf8 "Unexpected error: " ++ exn_str ex)
    else
      orchestrate s e locate pause extract cleaner query clean verbose w = (Raised ex, w')
  end.
Proof.
  intros Hannounce.
  rewrite (orchestrate_run s e locate pause extract cleaner query clean verbose w w1
             Hannounce).
  destruct (attempt s e locate pause extract cleaner query clean verbose (clock w) w1)
    as [[returned|ex] w']; [reflexivity|].
  destruct ex as [msg|msg err|msg|]; cbn [is_exception]; cbv iota;
    try (eexists; split; [reflexivity|];
         split; [apply failure_record_success|];
         split; [apply failure_record_error|]).
  - left. reflexivity.
  - right. reflexivity.
  - right. reflexivity.
  - reflexivity.
Qed.

(** What the orchestrator returns when the tab is not located. *)
Lemma search_locate_failure s e query clean verbose w w1 msg :
  announce s query verbose w = (Ok tt, w1) ->
  checked (bridge_result (osascript e (FindTab s))) = Raised (SearchError msg) ->
  search s e query clean verbose w =
  (Ok (failure_record query msg 0%Z (strftime e "%Y-%m-%d %H:%M:%S" (clock w))), w1).
Proof.
  intros Hannounce Hfind. unfold search.
  rewrite (orchestrate_run _ _ _ _ _ _ _ _ _ _ _ Hannounce).
  rewrite (attempt_locate_raises _ _ _ _ _ _ _ _ _ _ _ (SearchError msg) w1);
    [|rewrite find_tab_run, Hfind; reflexivity].
  cbn [is_exception error_text]. cbv iota.
  destruct (announce_frame _ _ _ _ _ _ Hannounce) as (_ & -> & _).
  rewrite Z.sub_diag. reflexivity.
Qed.

(** C5. When the run reaches the tab-locate step and that step fails, the
    orchestrator returns a record with [success] false and a non-empty
    [error], and the command line prints [Error: ] and that text on the
    diagnostic stream and exits with status 1. *)
Theorem locate_failure_exits_1 s e args w w1 w0 ex :
  is_macos e = true ->
  announce s (arg_query args) (arg_verbose args) w = (Ok tt, w1) ->
  fst (find_tab s e w0) = Raised ex ->
  exists results w1' msg,
    search s e (arg_query args) (arg_clean args) (arg_verbose args) w = (Ok results, w1') /\
    results !! "success" = Some (VBool false) /\
    results !! "error" = Some (VStr msg) /\
    msg <> [] /\
    exists w2,
      main s e args w = (Exited 1, w2) /\
      stderr w2 = stderr w ++ [utf8 "Error: " ++ msg].
Proof.
  intros Hmac Hannounce Hfind. rewrite find_tab_run in Hfind. simpl in Hfind.
  destruct (checked_raised_nonempty _ _ Hfind) as (msg & -> & Hmsg).
  pose proof (search_locate_failure s e (arg_query args) (arg_clean args)
                (arg_verbose args) w w1 msg Hannounce Hfind) as Hsearch.
  eexists _, _, msg. split; [exact Hsearch|].
  split; [apply failure_record_success|].
  split; [apply failure_record_error|].
  split; [exact Hmsg|].
  eexists. unfold main, main_body. rewrite Hmac. change (negb true) with false. cbv iota.
  unfold mbind at 1, M_bind at 1. rewrite Hsearch. cbv iota beta.
  unfold mbind at 1, M_bind at 1, subscript at 1.
  rewrite failure_record_success.
  unfold mret at 1, M_ret at 1. cbv iota beta. change (truth (VBool false)) with false. cbv iota.
  unfold mbind at 1, M_bind at 1, subscript at 1.
  rewrite failure_record_error.
  unfold mret at 1, M_ret at 1. cbv iota beta.
  split; [reflexivity|].
  simpl. destruct (announce_frame _ _ _ _ _ _ Hannounce) as (-> & _).
  reflexivity.
Qed.

End Results.

Lemma orchestrate_catches_witness :
  match attempt deepseek (one_tab None)
          (raise (OtherException (utf8 "no browser")))
          (mret tt) (fun _ => mret (utf8 "raw")) (fun c _ => mret c)
          (utf8 "q") true false (clock empty_world) empty_world with
  | (Ok returned, w') =>
    orchestrate deepseek (one_tab None)
      (raise (OtherException (utf8 "no browser")))
      (mret tt) (fun _ => mret (utf8 "raw")) (fun c _ => mret c)
      (utf8 "q") true false empty_world = (Ok returned, w')
  | (Raised ex, w') =>
    if is_exception ex then
      exists results,
        orchestrate deepseek (one_tab None)
          (raise (OtherException (utf8 "no browser")))
          (mret tt) (fun _ => mret (utf8 "raw")) (fun c _ => mret c)
          (utf8 "q") true false empty_world = (Ok results, w') /\
        results !! "success" = Some (VBool false) /\
        results !! "error" = Some (VStr (error_text ex)) /\
        (error_text ex = exn_str ex \/
         error_text ex = utf8 "Unexpected error: " ++ exn_str ex)
    else
      orchestrate deepseek (one_tab None)
        (raise (OtherException (utf8 "no browser")))
        (mret tt) (fun _ => mret (utf8 "raw")) (fun c _ => mret c)
        (utf8 "q") true false empty_world = (Raised ex, w')
  end.
Proof.
  apply (orchestrate_catches deepseek (one_tab None)
           (raise (OtherException (utf8 "no browser")))
           (mret tt) (fun _ => mret (utf8 "raw")) (fun c _ => mret c)
           (utf8 "q") true false empty_world empty_world).
  reflexivity.
Defined.

(** C4, as worded: not so.  In a verbose run the operator's interrupt of
    the five-second pause is raised inside the [try] and is no
    [Exception]: it leaves [search_deepseek].  And the two announcements
    are printed ahead of the [try]: with a query that the standard output
    cannot encode, the first of them raises, and that exception leaves
    [search_deepseek] too. *)
Lemma search_raises :
  fst (@search ascii_unicode deepseek (interrupting (Some news_page))
         (utf8 "what is new") true true empty_world) = Raised KeyboardInterrupt /\
  fst (@search ascii_unicode deepseek (one_tab (Some news_page))
         undecodable_query true true empty_world) = Raised cannot_encode.
Proof. split; vm_compute; reflexivity. Qed.

Lemma locate_failure_exits_1_witness :
  exists results w1 msg,
    @search ascii_unicode deepseek (one_tab None) (arg_query quiet_arguments)
      (arg_clean quiet_arguments) (arg_verbose quiet_arguments) empty_world
      = (Ok results, w1) /\
    results !! "success" = Some (VBool false) /\
    results !! "error" = Some (VStr msg) /\
    msg <> [] /\
    exists w2,
      @main ascii_unicode deepseek (one_tab None) quiet_arguments empty_world
        = (Exited 1, w2) /\
      stderr w2 = stderr empty_world ++ [utf8 "Error: " ++ msg].
Proof.
  apply (@locate_failure_exits_1 ascii_unicode deepseek (one_tab None) quiet_arguments
           empty_world empty_world empty_world (SearchError (tab_not_found deepseek))).
  - reflexivity.
  - reflexivity.
  - vm_compute. reflexivity.
Defined.

(** The record and the exit of that run, computed. *)
Example locate_failure_run :
  let '(status, w) := @main ascii_unicode deepseek (one_tab None) quiet_arguments empty_world in
  status = Exited 1 /\ stderr w = [utf8 "Error: ERROR: DeepSeek tab not found"] /\ stdout w = [].
Proof. vm_compute. repeat split; reflexivity. Qed.

(** An exception of the cleaning step, which is not the site's error,
    comes back as a failure record too. *)
Example orchestrate_unexpected :
  match fst (orchestrate deepseek (one_tab None)
               (mret (utf8 "SUCCESS")) (mret tt) (fun _ => mret (utf8 "raw"))
               (fun _ _ => raise (OtherException (utf8 "boom")))
               (utf8 "q") true false empty_world) with
  | Ok results =>
    results !! "success" = Some (VBool false) /\
    results !! "error" = Some (VStr (utf8 "Unexpected error: boom"))
  | Raised _ => False
  end.
Proof. vm_compute. split; reflexivity. Qed.

(** The interpreter's output for a page script, once stripped, put through
    the test on [ERROR:]. *)
Lemma extract_content_completed s e query out w :
  encodable (spliced (RunInTab s (script_for query))) = true ->
  osascript e (RunInTab s (script_for query)) = Completed out ->
  extract_content s e query w =
  (if contains (utf8 "ERROR:") (strip out) then Raised (SearchError (strip out))
   else Ok (strip out), w).
Proof.
  intros Henc Hout. unfold extract_content. fold (script_for query).
  rewrite extract_content_run by exact Henc.
  rewrite Hout. reflexivity.
Qed.

(** The marker of the query-scoped script at the head of a text survives
    stripping. *)
Lemma query_not_found_stripped rest :
  exists tail,
    strip (query_not_found ++ rest) = utf8 "ERROR: Query not found in page" ++ tail /\
    contains (utf8 "ERROR:") (utf8 "ERROR: Query not found in page" ++ tail) = true.
Proof.
  assert (Hfirst : utf8 "ERROR: Query not found in page"
                   = 0x45 :: utf8 "RROR: Query not found in page")
    by (vm_compute; reflexivity).
  assert (Hlast : utf8 "ERROR: Query not found in page"
                  = utf8 "ERROR: Query not found in pag" ++ [0x65])
    by (vm_compute; reflexivity).
  assert (Hhead : utf8 "ERROR: Query not found in page"
                  = utf8 "ERROR:" ++ utf8 " Query not found in page")
    by (vm_compute; reflexivity).
  assert (HE : py_isspace 0x45 = false) by (vm_compute; reflexivity).
  assert (He : py_isspace 0x65 = false) by (vm_compute; reflexivity).
  destruct (trim_with_keeps py_isspace (utf8 "ERROR: Query not found in page")
              ([NL; NL] ++ utf8 "Full text:" ++ [NL] ++ rest)
              _ _ _ _ Hfirst Hlast HE He) as [tail Htail].
  exists tail. split.
  - rewrite <- Htail. unfold strip, query_not_found.
    rewrite <- !app_assoc. reflexivity.
  - apply is_prefix_contains. rewrite Hhead, <- app_assoc. apply is_prefix_app.
Qed.

(** C3, as worded: not so.  The text [hello] does not have the query
    [absent]; and whatever the bridge and the page do, no call of
    [extract_content] with that query returns a string that begins with
    [ERROR: Query not found in page]. *)
Lemma extract_content_missing_query_not_returned :
  contains (utf8 "absent") (utf8 "hello") = false /\
  forall e w result w',
    extract_content deepseek e (Some (utf8 "absent")) w = (Ok result, w') ->
    is_prefix (utf8 "ERROR: Query not found in page") result = false.
Proof.
  split; [vm_compute; reflexivity|].
  intros e w result w' Hreturned.
  destruct (extract_content_ok _ _ _ _ _ _ Hreturned) as (Hclean & _ & _).
  destruct (is_prefix (utf8 "ERROR: Query not found in page") result) eqn:Hp; [|reflexivity].
  assert (Hhead : utf8 "ERROR: Query not found in page"
                  = utf8 "ERROR:" ++ utf8 " Query not found in page")
    by (vm_compute; reflexivity).
  rewrite Hhead in Hp. apply is_prefix_app_l, is_prefix_contains in Hp. congruence.
Qed.

(** C3, amended.  Take a query without a quote, a backslash or a line
    break, and a page whose text, like the query of the Basic Multilingual
    Plane, does not contain it.  The page script's value is then the
    marker followed by the first 5000 characters of the text; and when the
    interpreter prints that value, up to white space around it,
    [extract_content], finding [ERROR:] in it, raises the site's error
    with the stripped text as its message: a message that begins with
    [ERROR: Query not found in page]. *)
Theorem extract_content_missing_query_raises s e text q out w :
  q <> [] ->
  encodable q = true ->
  plain q = true ->
  bmp q = true ->
  bmp text = true ->
  contains q text = false ->
  osascript e (RunInTab s (QueryScoped q)) = Completed out ->
  strip out = strip (page_query_scoped q text) ->
  page_query_scoped q text = query_not_found ++ take 5000 text /\
  exists tail,
    strip (query_not_found ++ take 5000 text)
      = utf8 "ERROR: Query not found in page" ++ tail /\
    extract_content s e (Some q) w
      = (Raised (SearchError (utf8 "ERROR: Query not found in page" ++ tail)), w).
Proof.
  intros Hq Henc _ _ _ Hmissing Hout Hprinted.
  pose proof (page_query_scoped_missing q text Hmissing) as Hpage.
  split; [exact Hpage|].
  destruct (query_not_found_stripped (take 5000 text)) as (tail & Hstrip & Hfound).
  exists tail. split; [exact Hstrip|].
  assert (Hscript : script_for (Some q) = QueryScoped q).
  { destruct q; [congruence|reflexivity]. }
  rewrite (extract_content_completed s e (Some q) out w).
  - rewrite Hprinted, Hpage, Hstrip, Hfound. reflexivity.
  - rewrite Hscript. exact Henc.
  - rewrite Hscript. exact Hout.
Qed.

Lemma extract_content_missing_query_raises_witness :
  page_query_scoped (utf8 "absent") (utf8 "hello")
    = query_not_found ++ take 5000 (utf8 "hello") /\
  exists tail,
    strip (query_not_found ++ take 5000 (utf8 "hello"))
      = utf8 "ERROR: Query not found in page" ++ tail /\
    extract_content deepseek (one_tab (Some (utf8 "hello"))) (Some (utf8 "absent")) empty_world
      = (Raised (SearchError (utf8 "ERROR: Query not found in page" ++ tail)), empty_world).
Proof.
  apply (extract_content_missing_query_raises deepseek (one_tab (Some (utf8 "hello")))
           (utf8 "hello") (utf8 "absent")
           (page_query_scoped (utf8 "absent") (utf8 "hello") ++ [NL]) empty_world).
  - discriminate.
  - reflexivity.
  - reflexivity.
  - reflexivity.
  - reflexivity.
  - reflexivity.
  - reflexivity.
  - apply strip_app_newline.
Defined.

(** C9, as worded: not so.  On a page whose text is [Loading...] and a
    newline, no line passes the filter and the first 5000 characters are
    the whole text; and whatever the bridge and the page do, no call of
    [extract_content] without a query returns that text, which ends with
    the white space that the bridge strips. *)
Lemma extract_content_fallback_not_verbatim :
  contentLines (split NL loading_page) = [] /\
  take 5000 loading_page = loading_page /\
  forall e w result w',
    extract_content deepseek e None w = (Ok result, w') ->
    result <> take 5000 loading_page.
Proof.
  split; [reflexivity|]. split; [reflexivity|].
  intros e w result w' Hreturned ->.
  destruct (extract_content_ok _ _ _ _ _ _ Hreturned) as (_ & Hstripped & _).
  vm_compute in Hstripped. discriminate Hstripped.
Qed.

(** C9, amended.  Without a query, when no line of the page's text, a
    text of the Basic Multilingual Plane, passes the filter, the page
    script's value is the first 5000 characters of the text as they are;
    and when the interpreter prints that value, up to white space around
    it, [extract_content] returns those characters with the white space at
    both ends removed, provided [ERROR:] does not occur in them. *)
Theorem extract_content_fallback s e text out w :
  bmp text = true ->
  contentLines (split NL text) = [] ->
  osascript e (RunInTab s Unscoped) = Completed out ->
  strip out = strip (page_unscoped text) ->
  contains (utf8 "ERROR:") (strip (take 5000 text)) = false ->
  page_unscoped text = take 5000 text /\
  extract_content s e None w = (Ok (strip (take 5000 text)), w).
Proof.
  intros _ Hnone Hout Hprinted Hclean.
  pose proof (page_unscoped_fallback text Hnone) as Hpage.
  split; [exact Hpage|].
  rewrite (extract_content_completed s e None out w); [|reflexivity|exact Hout].
  rewrite Hprinted, Hpage, Hclean. reflexivity.
Qed.

Lemma extract_content_fallback_witness :
  page_unscoped loading_page = take 5000 loading_page /\
  extract_content deepseek (one_tab (Some loading_page)) None empty_world
    = (Ok (strip (take 5000 loading_page)), empty_world).
Proof.
  apply (extract_content_fallback deepseek (one_tab (Some loading_page)) loading_page
           (page_unscoped loading_page ++ [NL]) empty_world).
  - reflexivity.
  - reflexivity.
  - reflexivity.
  - apply strip_app_newline.
  - vm_compute. reflexivity.
Defined.

(** When [ERROR:] does occur in them, the caller gets an exception. *)
Lemma extract_content_fallback_error s e text out w :
  contentLines (split NL text) = [] ->
  osascript e (RunInTab s Unscoped) = Completed out ->
  strip out = strip (page_unscoped text) ->
  contains (utf8 "ERROR:") (strip (take 5000 text)) = true ->
  extract_content s e None w = (Raised (SearchError (strip (take 5000 text))), w).
Proof.
  intros Hnone Hout Hprinted Hmark.
  rewrite (extract_content_completed s e None out w); [|reflexivity|exact Hout].
  rewrite Hprinted, (page_unscoped_fallback text Hnone), Hmark. reflexivity.
Qed.

(** The page scripts on texts that do have what they look for.  The
    pattern of the [replace] call, a backslash and [s], is not in the text:
    the line break and the runs of spaces stay. *)
Example page_query_scoped_runs :
  page_query_scoped (utf8 "ell") (utf8 " hello   world" ++ [NL] ++ utf8 " and  more ")
  = utf8 "ello   world" ++ [NL] ++ utf8 " and  more".
Proof. vm_compute. reflexivity. Qed.

Example page_unscoped_runs :
  page_unscoped
    (utf8 "新对话" ++ [NL] ++ utf8 "  深度求索是一家人工智能公司，成立于二零二三年  " ++ [NL]
     ++ utf8 "抖音 深度求索是一家人工智能公司，成立于二零二三年" ++ [NL]
     ++ utf8 "a long line without any ideograph at all")
  = utf8 "深度求索是一家人工智能公司，成立于二零二三年".
Proof. vm_compute. reflexivity. Qed.

(** ** More about the cleaner *)

Section CleanerMore.
Context `{Unicode}.

Lemma collect_sublist lines : sublist (collect lines) (List.map strip lines).
Proof.
  induction lines as [|raw rest IH]; [constructor|].
  rewrite collect_cons. cbn [List.map].
  destruct (keep (strip raw)); [apply sublist_skip|apply sublist_cons]; exact IH.
Qed.

Lemma focus_first q ls r :
  focus q ls = Some r ->
  exists pre l rest,
    ls = pre ++ l :: rest /\ r = l :: rest /\
    Forall (fun l' => contains q (lower l') = false) pre /\
    contains q (lower l) = true.
Proof.
  induction ls as [|l rest IH]; simpl; [discriminate|].
  destruct (contains q (lower l)) eqn:C.
  - intros [= <-]. exists [], l, rest. repeat split; [constructor|exact C].
  - intros Hf. destruct (IH Hf) as (pre & l' & rest' & -> & -> & Hpre & Hl).
    exists (l :: pre), l', rest'. repeat split; [constructor; assumption|exact Hl].
Qed.

(** X1. The cleaner invents nothing and reorders nothing: the non-blank
    lines of its output are, in their order, some of the stripped lines of
    the content. *)
Theorem clean_content_lines_from_content content query :
  sublist (text_lines (clean_content content query))
          (List.map strip (split NL content)).
Proof.
  rewrite text_lines_clean_content.
  destruct (is_empty content); [apply sublist_nil_l|].
  destruct (retained_tail content query) as [[pre E] _].
  transitivity (collect (split NL content)); [|apply collect_sublist].
  rewrite E. apply sublist_inserts_l. reflexivity.
Qed.

(** X2. The anchor.  With a non-empty query that some kept line mentions,
    the output is the join of the kept lines from the first such line on:
    every kept line before it fails to mention the query, and everything
    before it is gone. *)
Theorem clean_content_anchor content q :
  q <> [] ->
  Exists (fun l => mentions q l = true) (collect (split NL content)) ->
  exists pre l rest,
    collect (split NL content) = pre ++ l :: rest /\
    Forall (fun l' => mentions q l' = false) pre /\
    mentions q l = true /\
    clean_content content (Some q) = join SEP (l :: rest).
Proof.
  intros Hq Hsome. unfold mentions in *.
  destruct (focus (lower q) (collect (split NL content))) as [r|] eqn:F.
  - destruct (focus_first _ _ _ F) as (pre & l & rest & E & -> & Hpre & Hl).
    exists pre, l, rest. repeat split; try assumption.
    unfold clean_content.
    destruct content as [|c content]; [rewrite E in F; destruct pre; discriminate|].
    change (is_empty (c :: content)) with false. cbv iota.
    unfold retained. rewrite F, E.
    destruct q; [congruence|]. destruct pre; reflexivity.
  - apply focus_None in F. apply Exists_exists in Hsome as (l & Hin & Hl).
    rewrite Forall_forall in F. rewrite (F l Hin) in Hl. discriminate.
Qed.

(** X3. Short answers vanish: when no line of the content is longer than
    10 characters once stripped, the cleaner returns the empty string,
    whatever the query. *)
Theorem clean_content_short_lines content query :
  Forall (fun raw => len (strip raw) <= 10) (split NL content) ->
  clean_content content query = [].
Proof.
  intros Hshort. unfold clean_content.
  destruct (is_empty content) eqn:E; [destruct content; [reflexivity|discriminate]|].
  assert (Hnone : collect (split NL content) = []).
  { induction Hshort as [|raw rest Hraw _ IH]; [reflexivity|].
    rewrite collect_cons. unfold keep.
    apply N.ltb_ge in Hraw. rewrite Hraw, andb_false_r. exact IH. }
  unfold retained. rewrite Hnone.
  destruct query as [q|]; [|reflexivity].
  rewrite andb_false_r. reflexivity.
Qed.

End CleanerMore.

Lemma clean_content_anchor_witness :
  exists pre l rest,
    @collect ascii_unicode (split NL two_lines) = pre ++ l :: rest /\
    Forall (fun l' => @mentions ascii_unicode (utf8 "QUERY") l' = false) pre /\
    @mentions ascii_unicode (utf8 "QUERY") l = true /\
    @clean_content ascii_unicode two_lines (Some (utf8 "QUERY")) = join SEP (l :: rest).
Proof.
  apply (@clean_content_anchor ascii_unicode two_lines (utf8 "QUERY")).
  - discriminate.
  - apply Exists_cons_tl, Exists_cons_hd. vm_compute. reflexivity.
Defined.

Lemma clean_content_short_lines_witness :
  @clean_content ascii_unicode short_answer (Some (utf8 "yes")) = [].
Proof.
  apply (@clean_content_short_lines ascii_unicode short_answer (Some (utf8 "yes"))).
  vm_compute. repeat constructor; discriminate.
Defined.

(** ** Trimmed texts *)

Section TrimFacts.
Variable f : char -> bool.

Lemma trim_with_fixed s : firm f s -> trim_with f s = s.
Proof.
  intros [(a & t & Ha & Hfa) (t0 & c & Hc & Hfc)].
  destruct (trim_with_keeps f s [] a t t0 c Ha Hc Hfa Hfc) as [tail Htail].
  rewrite app_nil_r in Htail.
  assert (Hlen : (length (trim_with f s) <= length s)%nat).
  { unfold trim_with. rewrite length_rev.
    destruct (drop_while_split f (rev (drop_while f s))) as [p1 E1].
    destruct (drop_while_split f s) as [p2 E2].
    apply (f_equal (@length char)) in E1, E2.
    rewrite length_app in E1, E2. rewrite length_rev in E1. lia. }
  rewrite Htail in Hlen. rewrite length_app in Hlen.
  destruct tail; [rewrite app_nil_r in Htail; exact Htail|simpl in Hlen; lia].
Qed.

Lemma trim_with_firm s : trim_with f s <> [] -> firm f (trim_with f s).
Proof.
  unfold trim_with. intros Hne.
  destruct (drop_while_split f (rev (drop_while f s))) as [pre E].
  destruct (drop_while f (rev (drop_while f s))) as [|c b] eqn:Eb;
    [exfalso; apply Hne; reflexivity|].
  pose proof (drop_while_head f _ _ _ Eb) as Hc.
  assert (Ea : drop_while f s = rev (c :: b) ++ rev pre).
  { rewrite <- rev_app_distr, <- E, rev_involutive. reflexivity. }
  split.
  - destruct (rev (c :: b)) as [|a t] eqn:Er; [congruence|].
    exists a, t. split; [reflexivity|].
    simpl in Ea. eapply drop_while_head. exact Ea.
  - exists (rev b), c. split; [reflexivity|exact Hc].
Qed.

Lemma firm_app s sep t : firm f s -> firm f t -> firm f (s ++ sep ++ t).
Proof.
  intros [(a & s1 & -> & Ha) _] [_ (t0 & c & -> & Hc)]. split.
  - exists a, (s1 ++ sep ++ t0 ++ [c]). split; [reflexivity|exact Ha].
  - exists ((a :: s1) ++ sep ++ t0), c.
    split; [rewrite <- !app_assoc; reflexivity|exact Hc].
Qed.

Lemma firm_join sep ls :
  ls <> [] -> Forall (firm f) ls -> firm f (join sep ls).
Proof.
  intros Hne HF. induction HF as [|l rest Hl Hrest IH]; [congruence|].
  destruct rest as [|l' rest']; [exact Hl|].
  change (join sep (l :: l' :: rest')) with (l ++ sep ++ join sep (l' :: rest')).
  apply firm_app; [exact Hl|]. apply IH. discriminate.
Qed.

End TrimFacts.

Section CleanerTrimmed.
Context `{Unicode}.

Lemma settled_firm l : settled l -> firm py_isspace l.
Proof.
  intros Hs. pose proof (settled_not_nil l Hs) as Hne.
  destruct Hs as (Hstrip & _). unfold strip in Hstrip.
  rewrite <- Hstrip. apply trim_with_firm. rewrite Hstrip. exact Hne.
Qed.

(** X4. What the cleaner returns is already trimmed: it neither begins
    nor ends with white space, so stripping it changes nothing. *)
Theorem clean_content_trimmed content query :
  strip (clean_content content query) = clean_content content query.
Proof.
  unfold clean_content.
  destruct content as [|c content]; [reflexivity|].
  change (is_empty (c :: content)) with false. cbv iota.
  pose proof (retained_settled (c :: content) query) as HS.
  destruct (retained (c :: content) query) as [|l rest] eqn:E; [reflexivity|].
  apply trim_with_fixed, firm_join; [discriminate|].
  eapply Forall_impl; [exact HS|]. apply settled_firm.
Qed.

End CleanerTrimmed.

(** ** More about the page scripts *)












Example page_query_scoped_spaced_page :
  page_query_scoped (utf8 "what is new") spaced_page
  = utf8 "what is new  in   the" ++ [NL; NL] ++ utf8 " answer".
Proof. vm_compute. reflexivity. Qed.

(** Where the text does have a backslash and [s], that is what the call
    replaces. *)
Example replace_backslash_s_runs :
  replace_backslash_s false (utf8 "a\sss b\s\t") = utf8 "a  b \t".
Proof. vm_compute. reflexivity. Qed.

(** ** More about the bridge *)

Lemma bridge_result_stripped r result :
  bridge_result r = Ok result -> strip result = result.
Proof.
  destruct r as [out|m err|m]; simpl; [|discriminate..].
  intros [= <-]. apply trim_with_idem.
Qed.


(** X8. With a script that can be written, the call comes to what the
    interpreter did and nothing else: its standard output, stripped, when
    it exits with status 0; the site's error carrying its standard error
    when it exits otherwise; the site's error carrying the exception's
    text when it cannot be run.  The world is as before in all three. *)
Theorem execute_applescript_outcomes e script w :
  encodable (spliced script) = true ->
  execute_applescript e script w =
  (match osascript e script with
   | Completed out => Ok (strip out)
   | Failed _ err => Raised (SearchError (utf8 "AppleScript execution failed: " ++ err))
   | NotRun msg => Raised (SearchError (utf8 "Failed to execute AppleScript: " ++ msg))
   end, w).
Proof.
  intros Henc. rewrite execute_applescript_run by exact Henc.
  destruct (osascript e script); reflexivity.
Qed.

Lemma execute_applescript_outcomes_witness :
  execute_applescript (one_tab (Some loading_page)) (FindTab deepseek) empty_world =
  (match osascript (one_tab (Some loading_page)) (FindTab deepseek) with
   | Completed out => Ok (strip out)
   | Failed _ err => Raised (SearchError (utf8 "AppleScript execution failed: " ++ err))
   | NotRun msg => Raised (SearchError (utf8 "Failed to execute AppleScript: " ++ msg))
   end, empty_world).
Proof.
  apply (execute_applescript_outcomes (one_tab (Some loading_page)) (FindTab deepseek)
           empty_world).
  reflexivity.
Defined.

Lemma tab_not_found_firm s : firm py_isspace (tab_not_found s).
Proof.
  unfold tab_not_found. split.
  - exists 0x45, (utf8 "RROR: " ++ utf8 (site_name s) ++ utf8 " tab not found").
    split; [|vm_compute; reflexivity].
    assert (E : utf8 "ERROR: " = 0x45 :: utf8 "RROR: ") by (vm_compute; reflexivity).
    rewrite E. reflexivity.
  - exists (utf8 "ERROR: " ++ utf8 (site_name s) ++ utf8 " tab not foun"), 0x64.
    split; [|vm_compute; reflexivity].
    assert (E : utf8 " tab not found" = utf8 " tab not foun" ++ [0x64])
      by (vm_compute; reflexivity).
    rewrite E, <- !app_assoc. reflexivity.
Qed.

Lemma tab_not_found_marked s : contains (utf8 "ERROR:") (tab_not_found s) = true.
Proof.
  apply is_prefix_contains. unfold tab_not_found.
  assert (E : utf8 "ERROR: " = utf8 "ERROR:" ++ [0x20]) by (vm_compute; reflexivity).
  rewrite E, <- app_assoc. apply is_prefix_app.
Qed.

Lemma locate_script_checked located s :
  checked (bridge_result (locate_script located s)) =
  match located (site_url s) with
  | Some _ => Ok (utf8 "SUCCESS")
  | None => Raised (SearchError (tab_not_found s))
  end.
Proof.
  unfold locate_script. destruct (located (site_url s)) as [text|].
  - vm_compute. reflexivity.
  - rewrite bridge_result_printed. unfold strip.
    rewrite trim_with_fixed by apply tab_not_found_firm.
    unfold checked. rewrite tab_not_found_marked. reflexivity.
Qed.

(** X9. Locating the tab when the interpreter runs the locate script as
    it is written: with a tab whose URL has the site's fragment the call
    returns [SUCCESS], without one it raises the site's error with the
    text [ERROR: <site> tab not found]; the world is unchanged either
    way. *)
Theorem find_tab_chrome s e located w :
  osascript e (FindTab s) = locate_script located s ->
  find_tab s e w =
  (match located (site_url s) with
   | Some _ => Ok (utf8 "SUCCESS")
   | None => Raised (SearchError (tab_not_found s))
   end, w).
Proof.
  intros Hbridge. rewrite find_tab_run, Hbridge.
  rewrite locate_script_checked. reflexivity.
Qed.

Lemma find_tab_chrome_witness :
  find_tab doubao (one_tab None) empty_world =
  (match (fun _ : string => @None str) (site_url doubao) with
   | Some _ => Ok (utf8 "SUCCESS")
   | None => Raised (SearchError (tab_not_found doubao))
   end, empty_world).
Proof.
  apply (find_tab_chrome doubao (one_tab None) (fun _ => None) empty_world).
  reflexivity.
Defined.

(** X10. What [extract_content] returns is never an error text and is
    trimmed: a returned string does not contain [ERROR:], stripping leaves
    it alone, and the world is as it was before the call.  A page whose
    extracted text has [ERROR:] in it cannot be extracted. *)
Theorem extract_content_returned s e query w result w' :
  extract_content s e query w = (Ok result, w') ->
  contains (utf8 "ERROR:") result = false /\ strip result = result /\ w' = w.
Proof.
  unfold extract_content.
  set (js_code := match query with
                  | Some q => if is_empty q then Unscoped else QueryScoped q
                  | None => Unscoped
                  end).
  destruct (encodable (spliced (RunInTab s js_code))) eqn:Henc.
  - rewrite extract_content_run by exact Henc.
    destruct (bridge_result (osascript e (RunInTab s js_code))) as [r|ex] eqn:Hr;
      simpl; [|discriminate].
    destruct (contains (utf8 "ERROR:") r) eqn:Hc; [discriminate|].
    intros [= <- <-]. split; [exact Hc|].
    split; [eapply bridge_result_stripped; exact Hr|reflexivity].
  - unfold mbind, M_bind.
    destruct (execute_applescript_unwritten e (RunInTab s js_code) w Henc) as [msg ->].
    discriminate.
Qed.

Lemma extract_content_returned_witness :
  contains (utf8 "ERROR:") (utf8 "Loading...") = false /\
  strip (utf8 "Loading...") = utf8 "Loading..." /\ empty_world = empty_world.
Proof.
  apply (extract_content_returned deepseek (one_tab (Some loading_page)) None
           empty_world (utf8 "Loading...") empty_world).
  vm_compute. reflexivity.
Defined.

(** X11. How the choice of script, the bridge and the test on [ERROR:]
    compose.  With a query that can be written, [extract_content] sends
    the query-scoped script when the query is not empty and the unscoped
    one otherwise, and comes to what the interpreter does with it: its
    output, stripped, when it completes, unless [ERROR:] occurs in that, in
    which case the site's error is raised with that text; the site's error
    with the interpreter's diagnostics when it fails or cannot be run.
    The world is as before. *)
Theorem extract_content_composed s e query w :
  encodable (match query with Some q => q | None => [] end) = true ->
  extract_content s e query w =
  (match osascript e (RunInTab s (match query with
                                  | Some (c :: q) => QueryScoped (c :: q)
                                  | _ => Unscoped
                                  end)) with
   | Completed out =>
     let value := strip out in
     if contains (utf8 "ERROR:") value then Raised (SearchError value) else Ok value
   | Failed _ err => Raised (SearchError (utf8 "AppleScript execution failed: " ++ err))
   | NotRun msg => Raised (SearchError (utf8 "Failed to execute AppleScript: " ++ msg))
   end, w).
Proof.
  intros Henc. unfold extract_content.
  destruct query as [[|c q]|]; cbn [is_empty]; cbv iota zeta;
    (rewrite extract_content_run by exact Henc);
    match goal with |- context [osascript e ?script] =>
      destruct (osascript e script) as [out|m err|m] end;
    reflexivity.
Qed.

Lemma extract_content_composed_witness :
  extract_content deepseek (one_tab (Some spaced_page)) (Some (utf8 "what is new")) empty_world =
  (match osascript (one_tab (Some spaced_page))
           (RunInTab deepseek (match Some (utf8 "what is new") with
                               | Some (c :: q) => QueryScoped (c :: q)
                               | _ => Unscoped
                               end)) with
   | Completed out =>
     let value := strip out in
     if contains (utf8 "ERROR:") value then Raised (SearchError value) else Ok value
   | Failed _ err => Raised (SearchError (utf8 "AppleScript execution failed: " ++ err))
   | NotRun msg => Raised (SearchError (utf8 "Failed to execute AppleScript: " ++ msg))
   end, empty_world).
Proof.
  apply (extract_content_composed deepseek (one_tab (Some spaced_page))
           (Some (utf8 "what is new")) empty_world).
  vm_compute. reflexivity.
Defined.
(** ** More about the orchestrator *)

(** Computations that keep a relation, composed. *)
Section Keeps.
Variable R : relation world.
Hypothesis R_refl : forall w, R w w.
Hypothesis R_trans : forall w1 w2 w3, R w1 w2 -> R w2 w3 -> R w1 w3.

Lemma keeps_ret {A} (Q : outcome A -> Prop) (a : A) : Q (Ok a) -> keeps R Q (mret a).
Proof. intros HQ w. split; [apply R_refl|exact HQ]. Qed.

Lemma keeps_raise {A} (Q : outcome A -> Prop) ex : Q (Raised ex) -> keeps R Q (raise ex).
Proof. intros HQ w. split; [apply R_refl|exact HQ]. Qed.

Lemma keeps_bind {A B} (good : A -> Prop) (bad : exn -> Prop) (Q : outcome B -> Prop)
    (m : M A) (k : A -> M B) :
  keeps R (outcome_is good bad) m ->
  (forall a, good a -> keeps R Q (k a)) ->
  (forall ex, bad ex -> Q (Raised ex)) ->
  keeps R Q (m ≫= k).
Proof.
  intros Hm Hk Hbad w. unfold mbind, M_bind.
  destruct (Hm w) as [HR HQ]. destruct (m w) as [[a|ex] w1]; simpl in HR, HQ.
  - destruct (Hk a HQ w1) as [HR1 HQ1]. split; [|exact HQ1].
    eapply R_trans; [exact HR|exact HR1].
  - split; [exact HR|]. apply Hbad. exact HQ.
Qed.

Lemma keeps_seq {A B} (good : A -> Prop) (bad : exn -> Prop) (good' : B -> Prop)
    (m : M A) (k : A -> M B) :
  keeps R (outcome_is good bad) m ->
  (forall a, good a -> keeps R (outcome_is good' bad) (k a)) ->
  keeps R (outcome_is good' bad) (m ≫= k).
Proof.
  intros Hm Hk. eapply keeps_bind; [exact Hm|exact Hk|].
  intros ex Hex. exact Hex.
Qed.

Lemma keeps_when (Q : outcome unit -> Prop) (b : bool) (m : M unit) :
  (b = true -> keeps R Q m) -> Q (Ok tt) -> keeps R Q (when b m).
Proof.
  intros Hm HQ. destruct b; [apply Hm; reflexivity|].
  intros w. split; [apply R_refl|exact HQ].
Qed.

Lemma keeps_try_except {A} (good : A -> Prop) (bad : exn -> Prop) (Q : outcome A -> Prop)
    (body : M A) (handler : exn -> M A) :
  keeps R (outcome_is good bad) body ->
  (forall a, good a -> Q (Ok a)) ->
  (forall ex, bad ex -> is_exception ex = true -> keeps R Q (handler ex)) ->
  (forall ex, bad ex -> is_exception ex = false -> Q (Raised ex)) ->
  keeps R Q (try_except body handler).
Proof.
  intros Hbody Hgood Hhandler Hpass w. unfold try_except.
  destruct (Hbody w) as [HR HQ]. destruct (body w) as [[a|ex] w1]; simpl in HR, HQ.
  - split; [exact HR|]. apply Hgood. exact HQ.
  - destruct (is_exception ex) eqn:Hex.
    + destruct (Hhandler ex HQ Hex w1) as [HR1 HQ1]. split; [|exact HQ1].
      eapply R_trans; [exact HR|exact HR1].
    + split; [exact HR|]. apply Hpass; assumption.
Qed.

End Keeps.

Lemma keeps_weaken {A} (R : relation world) (Q Q' : outcome A -> Prop) (m : M A) :
  keeps R Q m -> (forall o, Q o -> Q' o) -> keeps R Q' m.
Proof. intros Hm HQ w. destruct (Hm w) as [HR Ho]. split; [exact HR|apply HQ, Ho]. Qed.

Lemma keeps_bad {A} (R : relation world) (good : A -> Prop) (bad bad' : exn -> Prop)
    (m : M A) :
  keeps R (outcome_is good bad) m -> (forall ex, bad ex -> bad' ex) ->
  keeps R (outcome_is good bad') m.
Proof.
  intros Hm Hbad. eapply keeps_weaken; [exact Hm|].
  intros [a|ex]; simpl; [auto|apply Hbad].
Qed.

Lemma undisturbed_refl verbose query w : undisturbed verbose query w w.
Proof. repeat split. Qed.

Lemma undisturbed_trans verbose query w1 w2 w3 :
  undisturbed verbose query w1 w2 -> undisturbed verbose query w2 w3 ->
  undisturbed verbose query w1 w3.
Proof.
  intros (He1 & Hs1 & Ho1 & Ht1) (He2 & Hs2 & Ho2 & Ht2).
  split; [congruence|]. split; [congruence|].
  split; intros Hc; [rewrite (Ho2 Hc); exact (Ho1 Hc)|rewrite (Ht2 Hc); exact (Ht1 Hc)].
Qed.

(** A line printed in a verbose run. *)
Lemma undisturbed_print query line :
  keeps (undisturbed true query) (outcome_is (fun _ => True) (verbose_only true))
    (print line).
Proof.
  intros w. unfold print. destruct (encodable line); simpl.
  - split; [|exact I]. repeat split. discriminate.
  - split; [apply undisturbed_refl|]. split; [reflexivity|right; reflexivity].
Qed.

Lemma undisturbed_when_print verbose query line :
  keeps (undisturbed verbose query) (outcome_is (fun _ => True) (verbose_only verbose))
    (when verbose (print line)).
Proof.
  apply keeps_when; [apply undisturbed_refl| |exact I].
  intros ->. apply undisturbed_print.
Qed.

Lemma undisturbed_time_sleep e query secs :
  keeps (undisturbed true query) (outcome_is (fun _ => True) (verbose_only true))
    (time_sleep e secs).
Proof.
  intros w. unfold time_sleep. destruct (interrupted e); simpl.
  - split; [apply undisturbed_refl|]. split; [reflexivity|left; reflexivity].
  - split; [|exact I]. repeat split.
Qed.

Lemma undisturbed_find_tab verbose query s e :
  keeps (undisturbed verbose query) (outcome_is (fun _ => True) bridge_error)
    (find_tab s e).
Proof.
  intros w. rewrite find_tab_run. simpl. split; [apply undisturbed_refl|].
  destruct (checked (bridge_result (osascript e (FindTab s)))) as [tab|ex] eqn:Hfind;
    simpl; [exact I|].
  eapply checked_raised_nonempty. exact Hfind.
Qed.

(** The outcome and the world of [extract_content], whatever the bridge
    does. *)
Lemma undisturbed_extract_content verbose s e query :
  keeps (undisturbed verbose query)
    (outcome_is (fun raw => exists w0 w1, extract_content s e (Some query) w0 = (Ok raw, w1))
                bridge_error)
    (extract_content s e (Some query)).
Proof.
  intros w.
  destruct (extract_content s e (Some query) w) as [o w'] eqn:Hrun. simpl.
  split.
  - revert Hrun. unfold extract_content.
    set (js_code := if is_empty query then Unscoped else QueryScoped query).
    assert (Hsame : spliced (RunInTab s js_code) = [] \/ spliced (RunInTab s js_code) = query).
    { destruct query; simpl; auto. }
    destruct (encodable (spliced (RunInTab s js_code))) eqn:Henc.
    + rewrite extract_content_run by exact Henc.
      intros [= <- <-]. apply undisturbed_refl.
    + unfold mbind, M_bind.
      destruct (execute_applescript_unwritten e (RunInTab s js_code) w Henc) as [msg ->].
      intros [= <- <-]. repeat split.
      intros Hq. destruct Hsame as [E|E]; rewrite E in Henc; [discriminate|congruence].
  - destruct o as [raw|ex]; simpl; [eauto|].
    revert Hrun. unfold extract_content.
    set (js_code := if is_empty query then Unscoped else QueryScoped query).
    destruct (encodable (spliced (RunInTab s js_code))) eqn:Henc.
    + rewrite extract_content_run by exact Henc.
      intros [= Hex _]. eapply checked_raised_nonempty. exact Hex.
    + unfold execute_applescript, try_except, try_finally, write,
        mbind, M_bind, mret, M_ret, raise, NamedTemporaryFile.
      rewrite Henc. simpl.
      intros [= <- _]. eexists. split; [reflexivity|discriminate].
Qed.

Ltac record_lookup :=
  unfold success_record, failure_record;
  repeat first [rewrite lookup_insert_eq
               |rewrite lookup_insert_ne by discriminate
               |rewrite lookup_empty];
  reflexivity.

Section SearchFacts.
Context `{Unicode}.

Lemma undisturbed_announce verbose s query :
  keeps (undisturbed verbose query) (outcome_is (fun _ => True) (verbose_only verbose))
    (announce s query verbose).
Proof.
  unfold announce. apply keeps_when; [apply undisturbed_refl| |exact I].
  intros ->.
  eapply keeps_seq; [apply undisturbed_trans|apply undisturbed_print|].
  intros _ _. apply undisturbed_print.
Qed.

Lemma error_text_nonempty verbose ex :
  attempt_error verbose ex -> is_exception ex = true -> error_text ex <> [].
Proof.
  intros [(msg & -> & Hmsg)|[_ [->| ->]]] Hex; simpl; [exact Hmsg|discriminate..].
Qed.

(** A run of the [try] body of [search]. *)
Lemma undisturbed_attempt s e query clean verbose start :
  keeps (undisturbed verbose query)
    (outcome_is (search_record s e query clean) (attempt_error verbose))
    (attempt s e (find_tab s e) (time_sleep e 5)
       (fun query => extract_content s e (Some query))
       (fun content query => mret (clean_content content (Some query)))
       query clean verbose start).
Proof.
  assert (Hprint : forall line,
    keeps (undisturbed verbose query)
      (outcome_is (fun _ : unit => True) (attempt_error verbose))
      (when verbose (print line))).
  { intros line. eapply keeps_bad; [apply undisturbed_when_print|].
    intros ex Hex. right. exact Hex. }
  unfold attempt.
  eapply keeps_seq; [apply undisturbed_trans| |].
  { eapply keeps_bad; [apply (undisturbed_find_tab verbose query)|].
    intros ex Hex. left. exact Hex. }
  intros tab _.
  eapply keeps_seq; [apply undisturbed_trans|apply Hprint|].
  intros _ _.
  eapply keeps_seq with (good := fun _ => True); [apply undisturbed_trans| |].
  { apply keeps_when; [apply undisturbed_refl| |exact I].
    intros ->.
    eapply keeps_bad with (bad := verbose_only true); [|intros ex Hex; right; exact Hex].
    eapply keeps_seq; [apply undisturbed_trans|apply undisturbed_print|].
    intros _ _.
    eapply keeps_seq; [apply undisturbed_trans|apply undisturbed_print|].
    intros _ _. apply undisturbed_time_sleep. }
  intros _ _.
  eapply keeps_seq; [apply undisturbed_trans|apply Hprint|].
  intros _ _.
  eapply keeps_seq; [apply undisturbed_trans| |].
  { eapply keeps_bad; [apply (undisturbed_extract_content verbose s e query)|].
    intros ex Hex. left. exact Hex. }
  intros raw (w0 & w1 & Hraw).
  eapply keeps_seq; [apply undisturbed_trans|apply Hprint|].
  intros _ _.
  eapply keeps_seq with
    (good := fun content => content = if clean then clean_content raw (Some query) else raw);
    [apply undisturbed_trans| |].
  { destruct clean.
    - eapply keeps_seq; [apply undisturbed_trans|apply Hprint|].
      intros _ _.
      eapply keeps_seq with (good := fun content => content = clean_content raw (Some query));
        [apply undisturbed_trans| |].
      + apply keeps_ret; [apply undisturbed_refl|]. reflexivity.
      + intros content ->.
        eapply keeps_seq; [apply undisturbed_trans|apply Hprint|].
        intros _ _. apply keeps_ret; [apply undisturbed_refl|]. reflexivity.
    - apply keeps_ret; [apply undisturbed_refl|]. reflexivity. }
  intros content ->.
  intros w. unfold time_time, timestamp, mbind, M_bind, mret, M_ret. simpl.
  split; [apply undisturbed_refl|].
  right. exists raw, w0, w1. eexists _, _. split; [exact Hraw|reflexivity].
Qed.

(** All of a run of [search]: it leaves the diagnostic stream and the
    saved files alone, the standard output too when quiet, the temporary
    directory too when the query can be written; what it returns is the
    failure record of a non-empty message or the success record of what
    [extract_content] returned, cleaned on demand; and it raises in a
    verbose run only, the interrupt of the pause or the exception of an
    announcement that cannot be printed. *)
Lemma search_run s e query clean verbose :
  keeps (undisturbed verbose query)
    (outcome_is (search_record s e query clean) (verbose_only verbose))
    (search s e query clean verbose).
Proof.
  unfold search, orchestrate.
  eapply keeps_seq with (good := fun _ => True); [apply undisturbed_trans| |].
  { intros w. split; [apply undisturbed_refl|exact I]. }
  intros start _.
  eapply keeps_seq; [apply undisturbed_trans|apply undisturbed_announce|].
  intros _ _.
  eapply keeps_try_except; [apply undisturbed_trans|apply undisturbed_attempt| | |].
  - intros results Hresults. exact Hresults.
  - intros ex Hex Hcaught w.
    unfold recover, time_time, timestamp, mbind, M_bind, mret, M_ret. simpl.
    split; [apply undisturbed_refl|].
    left. eexists _, _, _. split; [|reflexivity].
    eapply error_text_nonempty; eassumption.
  - intros ex [(msg & -> & _)|Hex] Hpass; [discriminate|exact Hex].
Qed.


(** X13. [search] keeps to itself: it writes nothing on the diagnostic
    stream and saves no file, and without [verbose] it prints nothing. *)
Theorem search_frame s e query clean verbose w :
  stderr (snd (search s e query clean verbose w)) = stderr w /\
  saved (snd (search s e query clean verbose w)) = saved w /\
  stdout (snd (search s e query clean false w)) = stdout w.
Proof.
  destruct (search_run s e query clean verbose w) as [(Herr & Hsaved & _) _].
  destruct (search_run s e query clean false w) as [(_ & _ & Hquiet & _) _].
  repeat split; [exact Herr|exact Hsaved|exact (Hquiet eq_refl)].
Qed.

(** X14. With a query that can be written to the script file, a run of
    [search] leaves the temporary directory as it found it, whether the
    two bridge calls succeed or fail. *)
Theorem search_no_temp_files s e query clean verbose w :
  encodable query = true ->
  temp_files (snd (search s e query clean verbose w)) = temp_files w.
Proof.
  intros Hq.
  destruct (search_run s e query clean verbose w) as [(_ & _ & _ & Htemp) _].
  exact (Htemp Hq).
Qed.

End SearchFacts.

Lemma search_no_temp_files_witness :
  temp_files (snd (@search ascii_unicode deepseek (one_tab (Some news_page))
                     (utf8 "what is new") true true empty_world))
  = temp_files empty_world.
Proof.
  apply (@search_no_temp_files ascii_unicode deepseek (one_tab (Some news_page))
           (utf8 "what is new") true true empty_world).
  reflexivity.
Defined.
(** ** More about the command line *)

Lemma success_record_fields query content clean elapsed stamp :
  let r := success_record query content clean elapsed stamp in
  r !! "content" = Some (VStr content) /\
  r !! "query" = Some (VStr query) /\
  r !! "length" = Some (VInt (len content)) /\
  r !! "elapsed_time" = Some (VFloat elapsed) /\
  r !! "timestamp" = Some (VStr stamp).
Proof. cbv zeta. repeat split; record_lookup. Qed.

Lemma print_run line w :
  print line w = if encodable line then (Ok tt, add_stdout line w) else (Raised cannot_encode, w).
Proof. reflexivity. Qed.

Lemma saved_alone_refl w : saved_alone w w.
Proof. reflexivity. Qed.

Lemma saved_alone_trans w1 w2 w3 : saved_alone w1 w2 -> saved_alone w2 w3 -> saved_alone w1 w3.
Proof. unfold saved_alone. congruence. Qed.

Lemma saved_alone_print line :
  keeps saved_alone (outcome_is (fun _ => True) ordinary) (print line).
Proof.
  intros w. unfold print.
  destruct (encodable line); simpl; split; first [reflexivity|exact I].
Qed.

Lemma saved_alone_subscript results key :
  keeps saved_alone (outcome_is (fun _ => True) ordinary) (subscript results key).
Proof.
  intros w. unfold subscript.
  destruct (results !! key); simpl; split; first [reflexivity|exact I].
Qed.

Lemma saved_alone_format_2f e v :
  keeps saved_alone (outcome_is (fun _ => True) ordinary) (format_2f e v).
Proof. intros w. destruct v; simpl; split; first [reflexivity|exact I]. Qed.

(** A chain of look-ups and prints. *)
Ltac saved_alone_chain :=
  repeat first
    [ apply saved_alone_print
    | apply saved_alone_subscript
    | apply saved_alone_format_2f
    | apply keeps_ret; [apply saved_alone_refl|reflexivity]
    | apply keeps_when; [apply saved_alone_refl|intros _|exact I]
    | eapply keeps_seq with (good := fun _ => True); [apply saved_alone_trans| |intros ? _] ].

(** A relation followed by another, within a third. *)
Lemma keeps_then {A B} (R1 R2 R : relation world) (good : A -> Prop) (bad : exn -> Prop)
    (good' : B -> Prop) (m : M A) (k : A -> M B) :
  (forall w1 w2 w3, R1 w1 w2 -> R2 w2 w3 -> R w1 w3) ->
  (forall w1 w2, R1 w1 w2 -> R w1 w2) ->
  keeps R1 (outcome_is good bad) m ->
  (forall a, good a -> keeps R2 (outcome_is good' bad) (k a)) ->
  keeps R (outcome_is good' bad) (m ≫= k).
Proof.
  intros Hcomp Hsub Hm Hk w. unfold mbind, M_bind.
  destruct (Hm w) as [HR HQ]. destruct (m w) as [[a|ex] w1]; simpl in HR, HQ.
  - destruct (Hk a HQ w1) as [HR1 HQ1]. split; [|exact HQ1].
    eapply Hcomp; [exact HR|exact HR1].
  - split; [apply Hsub; exact HR|exact HQ].
Qed.

Lemma saved_alone_at_most path results w1 w2 :
  saved_alone w1 w2 -> saved_at_most path results w1 w2.
Proof. intros HR. left. exact HR. Qed.

Lemma saved_alone_then path results w1 w2 w3 :
  saved_alone w1 w2 -> saved_at_most path results w2 w3 -> saved_at_most path results w1 w3.
Proof. unfold saved_alone, saved_at_most. intros <-. auto. Qed.

Lemma saved_then_alone path results w1 w2 w3 :
  saved_at_most path results w1 w2 -> saved_alone w2 w3 -> saved_at_most path results w1 w3.
Proof. unfold saved_alone, saved_at_most. intros H12 ->. exact H12. Qed.

Section MainFacts.
Context `{Unicode}.

(** [save_results] with a path: the file is opened under it and the
    record dumped, or nothing is opened, or the dump breaks off. *)
Lemma save_results_given s e results c path :
  keeps (saved_at_most (c :: path) results)
    (outcome_is (fun saved_to => saved_to = c :: path) ordinary)
    (save_results s e results (Some (c :: path))).
Proof.
  intros w.
  cbv beta iota delta [save_results dump mbind M_bind mret M_ret is_empty].
  destruct (open_error e (c :: path)) as [msg|]; simpl.
  - split; [left; reflexivity|reflexivity].
  - destruct (record_encodable results); simpl.
    + split; [right; eauto|reflexivity].
    + split; [right; eauto|reflexivity].
Qed.

Lemma main_body_failure s e args w query msg elapsed stamp w1 :
  is_macos e = true ->
  search s e (arg_query args) (arg_clean args) (arg_verbose args) w
    = (Ok (failure_record query msg elapsed stamp), w1) ->
  main_body s e args w = (Ok 1, print_stderr (utf8 "Error: " ++ msg) w1).
Proof.
  intros Hmac Hsearch. unfold main_body. rewrite Hmac.
  change (negb true) with false. cbv iota.
  unfold mbind at 1, M_bind at 1. rewrite Hsearch. cbv iota beta.
  unfold mbind at 1, M_bind at 1, subscript at 1.
  rewrite failure_record_success.
  unfold mret at 1, M_ret at 1. cbv iota beta.
  change (truth (VBool false)) with false. cbv iota.
  unfold mbind at 1, M_bind at 1, subscript at 1.
  rewrite failure_record_error.
  unfold mret at 1, M_ret at 1. cbv iota beta. reflexivity.
Qed.

(** After a successful search: [main_body] returns 0 or raises an
    [Exception], and saves at most the record, under the path given, when
    it is to save at all. *)
Lemma main_body_success s e args w query content clean elapsed stamp w1 :
  is_macos e = true ->
  search s e (arg_query args) (arg_clean args) (arg_verbose args) w
    = (Ok (success_record query content clean elapsed stamp), w1) ->
  exists o w2,
    main_body s e args w = (o, w2) /\
    outcome_is (fun status => status = 0) ordinary o /\
    (saved w2 = saved w1 \/
     saves args = true /\
     exists path,
       arg_output args = Some path /\
       saved_at_most path (success_record query content clean elapsed stamp) w1 w2).
Proof.
  intros Hmac Hsearch. unfold main_body. rewrite Hmac.
  change (negb true) with false. cbv iota.
  unfold mbind at 1, M_bind at 1. rewrite Hsearch. cbv iota beta.
  unfold mbind at 1, M_bind at 1, subscript at 1.
  rewrite success_record_success.
  unfold mret at 1, M_ret at 1. cbv iota beta.
  change (truth (VBool true)) with true. cbv iota.
  set (r := success_record query content clean elapsed stamp).
  unfold saves.
  destruct args as [q0 c0 v o t]. cbn [arg_text_only arg_verbose arg_output].
  assert (Hplain : forall m : M N,
            keeps saved_alone (outcome_is (fun status => status = 0) ordinary) m ->
            exists o' w2, m w1 = (o', w2) /\
              outcome_is (fun status => status = 0) ordinary o' /\
              (saved w2 = saved w1 \/
               negb t && match o with Some path => negb (is_empty path) | None => false end
                 = true /\
               exists path, o = Some path /\ saved_at_most path r w1 w2)).
  { intros m Hm. destruct (Hm w1) as [HR HQ]. destruct (m w1) as [o' w2].
    exists o', w2. split; [reflexivity|]. split; [exact HQ|]. left. exact HR. }
  destruct t.
  - apply Hplain. saved_alone_chain.
  - destruct o as [[|a path]|].
    + apply Hplain. saved_alone_chain.
    + match goal with |- exists o' w2, ?m0 w1 = _ /\ _ => set (m := m0) end.
      assert (Hm : keeps (saved_at_most (a :: path) r)
                     (outcome_is (fun status => status = 0) ordinary) m).
      { subst m. eapply keeps_then with (R1 := saved_alone) (good := fun _ => True);
          [apply saved_alone_then|apply saved_alone_at_most|saved_alone_chain|].
        intros _ _.
        eapply keeps_then with (R1 := saved_alone) (good := fun _ => True);
          [apply saved_alone_then|apply saved_alone_at_most|saved_alone_chain|].
        intros content0 _.
        eapply keeps_then with (R1 := saved_alone) (good := fun _ => True);
          [apply saved_alone_then|apply saved_alone_at_most|saved_alone_chain|].
        intros _ _.
        eapply keeps_then with (R1 := saved_alone) (good := fun _ => True);
          [apply saved_alone_then|apply saved_alone_at_most|saved_alone_chain|].
        intros _ _.
        change (is_empty (a :: path)) with false. cbv iota.
        eapply keeps_then with (R2 := saved_alone);
          [apply saved_then_alone|intros w2 w3 HR; exact HR|apply save_results_given|].
        intros saved_to _. saved_alone_chain. }
      clearbody m. destruct (Hm w1) as [HR HQ]. destruct (m w1) as [o' w2].
      exists o', w2. split; [reflexivity|]. split; [exact HQ|].
      right. split; [reflexivity|]. exists (a :: path). split; [reflexivity|exact HR].
    + apply Hplain. saved_alone_chain.
Qed.

(** The standard output of a quiet run after a successful search. *)
Lemma main_body_quiet s e args w query content clean elapsed stamp w1 :
  is_macos e = true ->
  arg_verbose args = false ->
  search s e (arg_query args) (arg_clean args) (arg_verbose args) w
    = (Ok (success_record query content clean elapsed stamp), w1) ->
  stdout (snd (main_body s e args w))
  = stdout w1 ++ (if encodable content then [content] else []).
Proof.
  intros Hmac Hquiet Hsearch. unfold main_body. rewrite Hmac.
  change (negb true) with false. cbv iota.
  unfold mbind at 1, M_bind at 1. rewrite Hsearch. cbv iota beta.
  destruct (success_record_fields query content clean elapsed stamp)
    as (Hcontent & _).
  pose proof (success_record_success query content clean elapsed stamp) as Hsuccess.
  set (r := success_record query content clean elapsed stamp) in *. clearbody r.
  unfold subscript. rewrite Hsuccess, Hcontent.
  destruct args as [q0 c0 v o t]. cbn [arg_text_only arg_verbose arg_output] in *.
  subst v.
  destruct t, o as [[|a p]|];
    cbv beta iota delta [when save_results mbind M_bind mret M_ret print dump
                         py_str truth is_empty];
    destruct (encodable content);
    try (destruct (open_error e (a :: p)); [|destruct (record_encodable r)]);
    cbn [snd stdout]; first [reflexivity|symmetry; apply app_nil_r].
Qed.

Lemma main_unsupported s e args w :
  is_macos e = false ->
  main s e args w = (Exited 1, print_stderr (utf8 "Error: This tool requires macOS") w).
Proof. intros Hmac. unfold main, main_body. rewrite Hmac. reflexivity. Qed.

Lemma main_search_raises s e args w ex w1 :
  is_macos e = true ->
  search s e (arg_query args) (arg_clean args) (arg_verbose args) w = (Raised ex, w1) ->
  main s e args w
  = (if is_exception ex then Exited 1 else Interrupted, print_stderr traceback w1).
Proof.
  intros Hmac Hsearch. unfold main, main_body. rewrite Hmac.
  change (negb true) with false. cbv iota.
  unfold mbind at 1, M_bind at 1. rewrite Hsearch. unfold traceback. reflexivity.
Qed.

Lemma succeeded_failure query msg elapsed stamp :
  succeeded (failure_record query msg elapsed stamp) = false /\
  printed_content (failure_record query msg elapsed stamp) = [].
Proof.
  unfold succeeded, printed_content. rewrite failure_record_success. split; reflexivity.
Qed.

Lemma succeeded_success query content clean elapsed stamp :
  succeeded (success_record query content clean elapsed stamp) = true /\
  printed_content (success_record query content clean elapsed stamp)
    = if encodable content then [content] else [].
Proof.
  unfold succeeded, printed_content. rewrite success_record_success.
  destruct (success_record_fields query content clean elapsed stamp) as (-> & _).
  split; reflexivity.
Qed.

(** All of a run of [main] on the supported platform. *)
Lemma main_run s e args w :
  is_macos e = true ->
  exists o w1,
    search s e (arg_query args) (arg_clean args) (arg_verbose args) w = (o, w1) /\
    undisturbed (arg_verbose args) (arg_query args) w w1 /\
    match o with
    | Raised ex =>
      verbose_only (arg_verbose args) ex /\
      main s e args w
      = (if is_exception ex then Exited 1 else Interrupted, print_stderr traceback w1)
    | Ok results =>
      (exists msg,
         msg <> [] /\ succeeded results = false /\ printed_content results = [] /\
         main s e args w = (Exited 1, print_stderr (utf8 "Error: " ++ msg) w1)) \/
      (succeeded results = true /\
       exists status w2,
         main s e args w = (Exited status, w2) /\
         (status = 0 \/ status = 1) /\
         (saved w2 = saved w1 \/
          saves args = true /\
          exists path, arg_output args = Some path /\ saved_at_most path results w1 w2) /\
         (arg_verbose args = false -> stdout w2 = stdout w1 ++ printed_content results))
    end.
Proof.
  intros Hmac.
  destruct (search_run s e (arg_query args) (arg_clean args) (arg_verbose args) w)
    as [Hframe Hshape].
  destruct (search s e (arg_query args) (arg_clean args) (arg_verbose args) w)
    as [o w1] eqn:Hsearch.
  simpl in Hframe, Hshape. exists o, w1.
  split; [reflexivity|]. split; [exact Hframe|].
  destruct o as [results|ex]; simpl in Hshape.
  - destruct Hshape as [(msg & elapsed & stamp & Hmsg & ->)
                       |(raw & w0 & w3 & elapsed & stamp & _ & ->)].
    + left. exists msg. split; [exact Hmsg|].
      destruct (succeeded_failure (arg_query args) msg elapsed stamp) as [-> ->].
      split; [reflexivity|]. split; [reflexivity|].
      unfold main. rewrite (main_body_failure _ _ _ _ _ _ _ _ _ Hmac Hsearch). reflexivity.
    + right.
      match type of Hsearch with _ = (Ok (success_record _ ?c _ _ _), _) =>
        set (content := c) in * end.
      destruct (succeeded_success (arg_query args) content (arg_clean args) elapsed stamp)
        as [-> ->].
      split; [reflexivity|].
      destruct (main_body_success _ _ _ _ _ _ _ _ _ _ Hmac Hsearch)
        as (o & w2 & Hbody & Ho & Hsaved).
      pose proof (fun Hq => main_body_quiet _ _ _ _ _ _ _ _ _ _ Hmac Hq Hsearch) as Hout.
      unfold main, traceback. rewrite Hbody in *. cbn [snd] in Hout.
      destruct o as [status|ex]; simpl in Ho.
      * exists status, w2. split; [reflexivity|]. split; [left; exact Ho|].
        split; [exact Hsaved|exact Hout].
      * unfold ordinary in Ho. rewrite Ho.
        eexists 1, _. split; [reflexivity|].
        split; [right; reflexivity|]. split; [exact Hsaved|exact Hout].
  - split; [exact Hshape|].
    exact (main_search_raises _ _ _ _ _ _ Hmac Hsearch).
Qed.

End MainFacts.
(** ** The whole run: results *)

Section WholeRun.
Context `{Unicode}.


(** X21. Failing fast.  Once the announcements are out, when the first
    step raises an [Exception] the orchestrator is done: it returns the
    failure record of that exception, and the world is the one the first
    step left, no later step having run. *)
Theorem orchestrate_fails_fast s e locate pause extract cleaner query clean verbose
    w w1 ex w' :
  announce s query verbose w = (Ok tt, w1) ->
  locate w1 = (Raised ex, w') ->
  is_exception ex = true ->
  orchestrate s e locate pause extract cleaner query clean verbose w =
  (Ok (failure_record query (error_text ex) (clock w' - clock w)%Z
         (strftime e "%Y-%m-%d %H:%M:%S" (clock w'))), w').
Proof.
  intros Hannounce Hlocate Hcaught.
  rewrite (orchestrate_run s e locate pause extract cleaner query clean verbose w w1
             Hannounce).
  rewrite (attempt_locate_raises s e locate pause extract cleaner query clean verbose
             (clock w) w1 ex w' Hlocate).
  rewrite Hcaught. reflexivity.
Qed.

(** X16. The exit status.  [main] exits with 0 only on the supported
    platform and after a search that returned a record with [success]
    true; it exits with 1 on another platform and whenever the search
    returned a record without success; and it exits with no status other
    than 0 and 1. *)
Theorem main_exit_status s e args w :
  (fst (main s e args w) = Exited 0 ->
   is_macos e = true /\
   exists results w1,
     search s e (arg_query args) (arg_clean args) (arg_verbose args) w = (Ok results, w1) /\
     succeeded results = true) /\
  (is_macos e = false \/
   (exists results w1,
      search s e (arg_query args) (arg_clean args) (arg_verbose args) w = (Ok results, w1) /\
      succeeded results = false) ->
   fst (main s e args w) = Exited 1) /\
  (forall status, fst (main s e args w) = Exited status -> status = 0 \/ status = 1).
Proof.
  destruct (is_macos e) eqn:Hmac.
  - destruct (main_run s e args w Hmac) as (o & w1 & Hsearch & _ & Hcases).
    destruct o as [results|ex].
    + destruct Hcases as [(msg & _ & Hfailed & _ & Hmain)
                         |(Hsucceeded & status & w2 & Hmain & Hstatus & _)];
        rewrite Hmain; cbn [fst].
      * split; [discriminate|]. split; [reflexivity|].
        intros status [= <-]. right. reflexivity.
      * split; [intros _; split; [reflexivity|]; exists results, w1; split;
                [exact Hsearch|exact Hsucceeded]|].
        split; [|intros status' [= <-]; exact Hstatus].
        intros [Hno|(results' & w1' & Hother & Hfailed)]; [discriminate|].
        rewrite Hsearch in Hother. injection Hother as <- _. congruence.
    + destruct Hcases as [[Hverbose Hex] Hmain]. rewrite Hmain. cbn [fst].
      destruct Hex as [-> | ->]; cbn [is_exception cannot_encode]; cbv iota.
      * split; [discriminate|]. split; [|discriminate].
        intros [Hno|(results' & w1' & Hother & _)]; [discriminate|].
        rewrite Hsearch in Hother. discriminate.
      * split; [discriminate|]. split; [reflexivity|].
        intros status [= <-]. right. reflexivity.
  - rewrite (main_unsupported s e args w Hmac). cbn [fst].
    split; [discriminate|]. split; [reflexivity|].
    intros status [= <-]. right. reflexivity.
Qed.


(** X18. With [--text-only] nothing is saved, [--output] or not. *)
Theorem main_text_only_saves_nothing s e args w :
  arg_text_only args = true ->
  saved (snd (main s e args w)) = saved w.
Proof.
  intros Htext. destruct (is_macos e) eqn:Hmac.
  - destruct (main_run s e args w Hmac) as (o & w1 & _ & Hframe & Hcases).
    destruct Hframe as (_ & Hsaved & _).
    destruct o as [results|ex].
    + destruct Hcases as [(msg & _ & _ & _ & ->)
                         |(_ & status & w2 & -> & _ & Hsaves & _)];
        cbn [snd]; [exact Hsaved|].
      destruct Hsaves as [Hsame|(Hsaves & _)]; [congruence|].
      unfold saves in Hsaves. rewrite Htext in Hsaves. discriminate Hsaves.
    + destruct Hcases as [_ ->]. exact Hsaved.
  - rewrite (main_unsupported s e args w Hmac). reflexivity.
Qed.


(** X20. The slug of a query, from which the default output path is
    made, has at most 50 characters, no space, and nothing but word
    characters, white space other than the space, hyphens and the
    underscores that stand for the spaces. *)
Theorem query_slug_safe query :
  (length (query_slug query) <= 50)%nat /\ Forall slug_char (query_slug query).
Proof.
  unfold query_slug. split; [rewrite length_take; lia|].
  apply Forall_take. apply Forall_forall. intros c Hc.
  apply list_elem_of_In in Hc. apply in_map_iff in Hc as (x & <- & Hx).
  apply filter_In in Hx as [_ Hx]. unfold slug_char.
  destruct (N.eqb_spec x 0x20) as [->|Hne].
  - split; [discriminate|]. right; right; right. reflexivity.
  - split; [exact Hne|].
    apply orb_prop in Hx as [Hx|Hx]; [apply orb_prop in Hx as [Hx|Hx]|]; auto.
    apply N.eqb_eq in Hx. auto.
Qed.

End WholeRun.


Lemma orchestrate_fails_fast_witness :
  orchestrate deepseek (one_tab None)
    (raise (OtherException (utf8 "no browser")))
    (mret tt) (fun _ => mret (utf8 "raw")) (fun c _ => mret c)
    (utf8 "q") true false empty_world =
  (Ok (failure_record (utf8 "q") (error_text (OtherException (utf8 "no browser")))
         (clock empty_world - clock empty_world)%Z
         (strftime (one_tab None) "%Y-%m-%d %H:%M:%S" (clock empty_world))), empty_world).
Proof.
  apply (orchestrate_fails_fast deepseek (one_tab None)
           (raise (OtherException (utf8 "no browser")))
           (mret tt) (fun _ => mret (utf8 "raw")) (fun c _ => mret c)
           (utf8 "q") true false empty_world empty_world
           (OtherException (utf8 "no browser")) empty_world).
  - reflexivity.
  - reflexivity.
  - reflexivity.
Defined.

Lemma main_text_only_saves_nothing_witness :
  saved (snd (@main ascii_unicode deepseek (one_tab (Some news_page)) text_only_arguments
                empty_world))
  = saved empty_world.
Proof.
  apply (@main_text_only_saves_nothing ascii_unicode deepseek (one_tab (Some news_page))
           text_only_arguments empty_world).
  reflexivity.
Defined.


(** The run with [--output], computed: the answer is printed and the
    record saved under the path given. *)
Example main_saving_run :
  let '(status, w) := @main ascii_unicode deepseek (one_tab (Some news_page))
                        saving_arguments empty_world in
  status = Exited 0 /\
  stdout w = [utf8 "what is new" ++ [NL; NL]
              ++ utf8 "Plenty is new this week, here is the list"] /\
  stderr w = [] /\
  List.map fst (saved w) = [utf8 "out.json"] /\
  temp_files w = ∅.
Proof. vm_compute. repeat split; reflexivity. Qed.

(** The same run on a disk that takes no file: the answer is printed,
    nothing is saved, and the process ends with a traceback and status
    1. *)
Example main_read_only_run :
  let '(status, w) := @main ascii_unicode deepseek (read_only (Some news_page))
                        saving_arguments empty_world in
  status = Exited 1 /\
  stdout w = [utf8 "what is new" ++ [NL; NL]
              ++ utf8 "Plenty is new this week, here is the list"] /\
  stderr w = [traceback] /\
  saved w = [].
Proof. vm_compute. repeat split; reflexivity. Qed.

(** A verbose run interrupted during the pause: the process ends on the
    interrupt, nothing extracted. *)
Example main_interrupted_run :
  let '(status, w) := @main ascii_unicode deepseek (interrupting (Some news_page))
                        (Namespace (utf8 "what is new") true true None false) empty_world in
  status = Interrupted /\ stderr w = [traceback] /\ saved w = [] /\ temp_files w = ∅.
Proof. vm_compute. repeat split; reflexivity. Qed.
